(** * A shallow embedding of [build/generate_code.py]

    The script drives a four-stage generation pipeline (HTML, JavaScript,
    CSS, tests) followed by three configuration files.  Every stage reads a
    prompt file, posts one chat-completion request, unwraps the reply with
    [extract_code] and saves it.  The embedding keeps Python's data as it is:
    a [str] is a sequence of Unicode code points, indices are integers with
    [-1] for "not found", exceptions are values of an error type, and the
    effects (file system, standard streams, HTTP requests) are threaded
    through an explicit world. *)

From Stdlib Require Import ZArith NArith Ascii String List Lia.
From stdpp Require Import base list gmap strings pretty.

Local Open Scope Z_scope.

(** ** Python strings *)

Module PyStr.

(** A Python [str] is a sequence of code points. *)
Abbreviation str := (list N).

(** A literal of the source, character by character. *)
Definition lit (s : string) : str :=
  List.map N_of_ascii (list_ascii_of_string s).

Definition NL : str := [10%N].

(** [str.isspace] on one character: the code points CPython's
    [_PyUnicode_IsWhitespace] accepts. *)
Definition isspace (c : N) : bool :=
  ((9 <=? c) && (c <=? 13) || (28 <=? c) && (c <=? 32) || (c =? 133)
   || (c =? 160) || (c =? 5760) || (8192 <=? c) && (c <=? 8202)
   || (c =? 8232) || (c =? 8233) || (c =? 8239) || (c =? 8287)
   || (c =? 12288))%N.

(** Truth value of a string in a condition: non-empty. *)
Definition truthy (s : str) : bool :=
  match s with [] => false | _ :: _ => true end.

(** [s.startswith(sub)] with [s] the text at the current position. *)
Fixpoint startswith (sub s : str) : bool :=
  match sub, s with
  | [], _ => true
  | _ :: _, [] => false
  | a :: sub', b :: s' => (a =? b)%N && startswith sub' s'
  end.

(** [sub in s]. *)
Fixpoint contains (sub s : str) : bool :=
  startswith sub s ||
  match s with [] => false | _ :: s' => contains sub s' end.

(** Lowest position of [sub] in [s], where [s] is the text that starts at
    index [i] of the whole string; [-1] when there is none. *)
Fixpoint find_from (sub s : str) (i : Z) : Z :=
  if startswith sub s then i
  else match s with [] => -1 | _ :: s' => find_from sub s' (i + 1) end.

(** [s.find(sub, start)]; a negative [start] counts from the end. *)
Definition find (s sub : str) (start : Z) : Z :=
  let n := Z.of_nat (length s) in
  let st := if start <? 0 then Z.max 0 (start + n) else start in
  if n <? st then -1 else find_from sub (drop (Z.to_nat st) s) st.

(** Highest position of [sub] in the text [s] that starts at index [i]. *)
Fixpoint rfind_from (sub s : str) (i : Z) : Z :=
  match s with
  | [] => if startswith sub s then i else -1
  | _ :: s' =>
      let r := rfind_from sub s' (i + 1) in
      if 0 <=? r then r else if startswith sub s then i else -1
  end.

(** [s.rfind(sub)]. *)
Definition rfind (s sub : str) : Z := rfind_from sub s 0.

(** A slice bound, as Python normalises it: a negative bound counts from
    the end, and the result is clamped to [0 .. len]. *)
Definition slice_bound (len i : Z) : Z :=
  if i <? 0 then Z.max 0 (i + len) else Z.min i len.

(** [s[a:b]]. *)
Definition slice (s : str) (a b : Z) : str :=
  let n := Z.of_nat (length s) in
  let a' := slice_bound n a in
  let b' := slice_bound n b in
  take (Z.to_nat (b' - a')) (drop (Z.to_nat a') s).

(** [s.lstrip()], [s.rstrip()], [s.strip()]. *)
Fixpoint lstrip (s : str) : str :=
  match s with
  | [] => []
  | c :: s' => if isspace c then lstrip s' else s
  end.

Definition rstrip (s : str) : str := reverse (lstrip (reverse s)).

Definition strip (s : str) : str := rstrip (lstrip s).

(** [sub * n]. *)
Fixpoint repeat_str (sub : str) (n : nat) : str :=
  match n with O => [] | S n' => sub ++ repeat_str sub n' end.

(** [str(n)] for a length. *)
Definition str_of_nat (n : nat) : str := lit (pretty n).

End PyStr.
Import PyStr.

(** ** CodeExtractor: [extract_code] *)

Definition fence : str := lit "```".

Definition extract_code (llm_response : str) : str :=
  if contains fence llm_response then
    let start := find llm_response fence 0 + 3 in
    let start :=
      if truthy (strip (slice llm_response start (start + 10)))
         && contains NL (slice llm_response start (start + 20))
      then find llm_response NL start + 1
      else start in
    let end_ := rfind llm_response fence in
    strip (slice llm_response start end_)
  else strip llm_response.

(** ** Vocabulary for the statements about strings *)

(** [sub] occurs in [s]. *)
Definition substring (sub s : str) : Prop :=
  exists pre post, s = pre ++ sub ++ post.

(** Every character of [s] is whitespace (also when [s] is empty). *)
Definition allspace (s : str) : bool := forallb isspace s.

(** [s] begins with a whitespace character. *)
Definition headspace (s : str) : bool :=
  match s with [] => false | c :: _ => isspace c end.

(** Neither the first nor the last character of [s] is whitespace. *)
Definition trimmed (s : str) : Prop :=
  headspace s = false /\ headspace (reverse s) = false.


(** ** Exceptions, requests and the world the script runs in *)

(** A raised exception: an instance of a subclass of [Exception] with its
    class name and the text [str(e)] gives, or the [SystemExit] that
    [sys.exit] raises, which [except Exception] does not catch. *)
Inductive exn : Type :=
| Exception (cls msg : str)
| SystemExit (code : Z).

(** The body of one POST to the chat-completions endpoint, with the two
    headers the script sets. *)
Record Request : Type := mkRequest {
  req_endpoint : str;
  req_content_type : str;
  req_authorization : str;
  req_model : str;
  req_system : str;        (* content of the message with role "system" *)
  req_user : str;          (* content of the message with role "user" *)
  req_temperature : Z * Z; (* numerator and denominator: 0.2 is (2, 10) *)
  req_max_tokens : Z
}.

(** What one POST leads to inside the [try] block of [call_llm_api]:
    [requests.post], [raise_for_status] or [json] raises; or the reply is
    decoded, the elapsed time is printed, and indexing the decoded reply
    raises; or the content of the first choice is returned.  [elapsed] is
    the elapsed time as [:.2f] formats it. *)
Inductive outcome : Type :=
| Raises (cls msg : str)
| Malformed (elapsed cls msg : str)
| Replies (elapsed content : str).

(** What the script does not control: the environment variables once
    [load_dotenv] has run, the service behind the endpoint (the answer to
    the [n]-th request of the run), and which paths can be opened for
    writing. *)
Record Env : Type := mkEnv {
  environ : gmap str str;
  server : nat -> Request -> outcome;
  writable : str -> bool
}.

(** What the script changes: the files (path to content), the lines
    printed on the two standard streams (one entry per [print]), and the
    requests posted so far, oldest first. *)
Record World : Type := mkWorld {
  files : gmap str str;
  stdout : list str;
  stderr : list str;
  requests : list Request
}.

Definition put_file (path content : str) (w : World) : World :=
  mkWorld (<[path := content]> (files w)) (stdout w) (stderr w) (requests w).

Definition log_stdout (line : str) (w : World) : World :=
  mkWorld (files w) (stdout w ++ [line]) (stderr w) (requests w).

Definition log_request (q : Request) (w : World) : World :=
  mkWorld (files w) (stdout w) (stderr w) (requests w ++ [q]).

(** The parsed command line: [args.model], [args.api_key], [args.endpoint];
    [None] when the option is not given. *)
Record Args : Type := mkArgs {
  arg_model : option str;
  arg_api_key : option str;
  arg_endpoint : option str
}.

(** ** Computations: state passing with exceptions *)

Definition M (A : Type) : Type := World -> (exn + A) * World.

Definition ret {A} (a : A) : M A := fun w => (inr a, w).

Definition raise {A} (e : exn) : M A := fun w => (inl e, w).

Definition bind {A B} (c : M A) (k : A -> M B) : M B :=
  fun w =>
    match c w with
    | (inr a, w') => k a w'
    | (inl e, w') => (inl e, w')
    end.

Declare Scope py_scope.
Delimit Scope py_scope with py.
Notation "x <- c ;; k" := (bind c (fun x => k))
  (at level 100, c at next level, right associativity) : py_scope.
Notation "c ;; k" := (bind c (fun _ => k))
  (at level 100, right associativity) : py_scope.
Local Open Scope py_scope.

(** [try: body except Exception as e: handler e]. *)
Definition try_except {A} (body : M A) (handler : exn -> M A) : M A :=
  fun w =>
    match body w with
    | (inl (Exception cls msg), w') => handler (Exception cls msg) w'
    | r => r
    end.

(** [for x in l: body x]. *)
Fixpoint for_each {A} (l : list A) (body : A -> M unit) : M unit :=
  match l with
  | [] => ret tt
  | x :: l' => body x ;; for_each l' body
  end.

(** [str(e)], as an f-string renders [{e}]. *)
Definition exn_str (e : exn) : str :=
  match e with
  | Exception _ msg => msg
  | SystemExit code => lit (pretty code)
  end.

(** [x or d] on an optional string: [None] and the empty string are false. *)
Definition or_else (x : option str) (d : str) : str :=
  match x with
  | Some (c :: s) => c :: s
  | _ => d
  end.

(** [not x] on an optional string. *)
Definition falsy (x : option str) : bool :=
  match x with
  | Some (_ :: _) => false
  | _ => true
  end.

Definition print (line : str) : M unit :=
  fun w => (inr tt, log_stdout line w).

Definition sys_exit {A} (code : Z) : M A := raise (SystemExit code).

(** ** The script *)

Section Script.

Variable env : Env.

(** *** Configuration *)

Definition DEFAULT_MODEL : str :=
  default (lit "gpt-4-turbo") (environ env !! lit "LLM_MODEL").

Definition DEFAULT_API_ENDPOINT : str :=
  default (lit "https://api.openai.com/v1/chat/completions")
          (environ env !! lit "LLM_API_ENDPOINT").

Definition PROMPT_DIR : str := lit "prompts".
Definition OUTPUT_DIR : str := lit "generated".

(** [dir / name] on paths. *)
Definition path_join (dir name : str) : str := dir ++ lit "/" ++ name.

(** *** PromptStore: [read_prompt_file] *)

(** [open(path, 'r')] on a missing file raises [FileNotFoundError], whose
    text names the path. *)
Definition file_not_found (path : str) : exn :=
  Exception (lit "FileNotFoundError")
    (lit "[Errno 2] No such file or directory: '" ++ path ++ lit "'").

Definition read_prompt_file (prompt_path : str) : M str :=
  fun w =>
    match files w !! prompt_path with
    | Some content => (inr (strip content), w)
    | None => (inl (file_not_found prompt_path), w)
    end.

(** *** CompletionClient: [call_llm_api] *)

Definition default_system_message : str :=
  lit "You are a code generator for a calculator application.".

Definition api_key_missing : exn :=
  Exception (lit "ValueError")
    (lit "API key not provided. Set the LLM_API_KEY in your .env file or pass it as an argument.").

(** [requests.post(endpoint, headers=headers, json=data)] and the decoding
    of its reply: the request is recorded and the service decides. *)
Definition post (q : Request) : M outcome :=
  fun w => (inr (server env (length (requests w)) q), log_request q w).

Definition call_llm_api (prompt system_message : str)
    (model api_key endpoint : option str) : M str :=
  let model := or_else model DEFAULT_MODEL in
  let endpoint := or_else endpoint DEFAULT_API_ENDPOINT in
  api_key <-
    (if falsy api_key then
       let api_key := environ env !! lit "LLM_API_KEY" in
       if falsy api_key then raise api_key_missing
       else ret (or_else api_key [])
     else ret (or_else api_key []));;
  let q := {| req_endpoint := endpoint;
              req_content_type := lit "application/json";
              req_authorization := lit "Bearer " ++ api_key;
              req_model := model;
              req_system := system_message;
              req_user := prompt;
              req_temperature := (2, 10);
              req_max_tokens := 4000 |} in
  print (lit "  Calling LLM API with model: " ++ model ++ lit "...");;
  try_except
    (r <- post q;;
     match r with
     | Raises cls msg => raise (Exception cls msg)
     | Malformed elapsed cls msg =>
         print (lit "  API call completed in " ++ elapsed ++ lit " seconds");;
         raise (Exception cls msg)
     | Replies elapsed content =>
         print (lit "  API call completed in " ++ elapsed ++ lit " seconds");;
         ret content
     end)
    (fun e =>
       print (lit "Error calling LLM API: " ++ exn_str e);;
       raise e).

(** *** PipelineStage: the four generators *)

Definition html_system_prompt : str :=
  lit "Generate only the HTML code for a calculator. Respond with ONLY the complete HTML file, no explanations or markdown.".

Definition js_system_prompt : str :=
  lit "Generate only the JavaScript code for a calculator. Respond with ONLY the complete JavaScript file, no explanations or markdown.".

Definition css_system_prompt : str :=
  lit "Generate only the CSS code for a calculator. Respond with ONLY the complete CSS file, no explanations or markdown.".

Definition tests_system_prompt : str :=
  lit "Generate only JavaScript test code for a calculator. Respond with ONLY the complete test file, no explanations or markdown.".

Definition html_full_prompt (prompt : str) : str :=
  html_system_prompt ++ NL ++ NL ++ prompt.

Definition generate_html (prompt : str) : M str :=
  print (lit "  Generating standalone HTML without prior context...");;
  let system_prompt := html_system_prompt in
  let full_prompt := system_prompt ++ NL ++ NL ++ prompt in
  call_llm_api full_prompt default_system_message None None None.

Definition js_context_text (html_context : str) : str :=
  NL ++
  lit "I'll provide you with the HTML structure of a calculator application followed by requirements" ++
  NL ++
  lit "for implementing its JavaScript business logic. Make sure your JavaScript code properly " ++
  NL ++
  lit "interacts with the HTML elements by using the correct IDs and classes." ++
  NL ++
  NL ++
  lit "Here's the HTML structure:" ++
  NL ++
  lit "```html" ++
  NL ++
  html_context ++
  NL ++
  lit "```" ++
  NL ++
  NL ++
  lit "Now, here are the requirements for the JavaScript business logic:" ++
  NL.

Definition generate_javascript (prompt html_context : str) : M str :=
  print (lit "  Generating JavaScript with HTML context...");;
  let system_prompt := js_system_prompt in
  let context := js_context_text html_context in
  let full_prompt := context ++ NL ++ prompt in
  call_llm_api full_prompt system_prompt None None None.

Definition css_context_text (html_context js_context : str) : str :=
  NL ++
  lit "I'll provide you with the HTML and JavaScript code for a calculator application followed by" ++
  NL ++
  lit "requirements for implementing its CSS styling. Make sure your CSS properly styles" ++
  NL ++
  lit "the HTML elements by using the correct IDs, classes, and elements." ++
  NL ++
  NL ++
  lit "Here's the HTML structure:" ++
  NL ++
  lit "```html" ++
  NL ++
  html_context ++
  NL ++
  lit "```" ++
  NL ++
  NL ++
  lit "Here's the JavaScript code:" ++
  NL ++
  lit "```javascript" ++
  NL ++
  js_context ++
  NL ++
  lit "```" ++
  NL ++
  NL ++
  lit "Now, here are the requirements for the CSS styling:" ++
  NL.

Definition generate_css (prompt html_context js_context : str) : M str :=
  print (lit "  Generating CSS with HTML and JavaScript context...");;
  let system_prompt := css_system_prompt in
  let context := css_context_text html_context js_context in
  let full_prompt := context ++ NL ++ prompt in
  call_llm_api full_prompt system_prompt None None None.

Definition tests_context_text (html_context js_context css_context : str)
    : str :=
  NL ++
  lit "I'll provide you with the complete implementation of a calculator application (HTML, JavaScript, and CSS)" ++
  NL ++
  lit "followed by requirements for implementing tests. Make sure your tests properly validate" ++
  NL ++
  lit "the calculator's functionality by checking all specified requirements." ++
  NL ++
  NL ++
  lit "Here's the HTML structure:" ++
  NL ++
  lit "```html" ++
  NL ++
  html_context ++
  NL ++
  lit "```" ++
  NL ++
  NL ++
  lit "Here's the JavaScript code:" ++
  NL ++
  lit "```javascript" ++
  NL ++
  js_context ++
  NL ++
  lit "```" ++
  NL ++
  NL ++
  lit "Here's the CSS code:" ++
  NL ++
  lit "```css" ++
  NL ++
  css_context ++
  NL ++
  lit "```" ++
  NL ++
  NL ++
  lit "Now, here are the requirements for the tests:" ++
  NL.

Definition generate_tests (prompt html_context js_context css_context : str)
    : M str :=
  print (lit "  Generating tests with full application context...");;
  let system_prompt := tests_system_prompt in
  let context := tests_context_text html_context js_context css_context in
  let full_prompt := context ++ NL ++ prompt in
  call_llm_api full_prompt system_prompt None None None.

(** *** Persistence *)

(** [open(path, 'w')] and [write]: raises when the path cannot be opened
    for writing, and replaces the content otherwise. *)
Definition write_file (path content : str) : M unit :=
  fun w =>
    if writable env path then (inr tt, put_file path content w)
    else (inl (Exception (lit "PermissionError")
                 (lit "[Errno 13] Permission denied: '" ++ path ++ lit "'")),
          w).

Definition save_file (content output_path : str) : M unit :=
  (* os.makedirs(os.path.dirname(output_path), exist_ok=True): the world
     records files only *)
  write_file output_path content;;
  print (lit "  Saved: " ++ output_path ++ lit " (" ++
         str_of_nat (length content) ++ lit " bytes)").


(** *** The auxiliary configuration files *)

Record Config : Type := mkConfig { cfg_name : str; cfg_prompt : str }.

Definition config_files : list Config :=
  [ mkConfig (lit "babel.config.js")
      (lit "Generate a babel configuration file for a JavaScript project using Jest for testing.");
    mkConfig (lit "jest.config.js")
      (lit "Generate a Jest configuration file for testing a vanilla JavaScript project.");
    mkConfig (lit "package.json")
      (lit "Generate a package.json file with all necessary dependencies for a JavaScript project using Jest for testing.") ].

Definition config_system_message : str :=
  lit "You are a helpful assistant that generates configuration files.".

(** The body of the loop of [generate_config_files]. *)
Definition generate_config_file (config : Config) : M unit :=
  let api_key := environ env !! lit "LLM_API_KEY" in
  let system_message := config_system_message in
  response_content <-
    call_llm_api (cfg_prompt config) system_message
                 (Some DEFAULT_MODEL) api_key None;;
  write_file (cfg_name config) response_content.

Definition generate_config_files : M unit :=
  for_each config_files generate_config_file.

(** *** GenerationPipeline: [main] *)

Definition ui_prompt_path : str := path_join PROMPT_DIR (lit "calculator-ui.prompt").
Definition logic_prompt_path : str := path_join PROMPT_DIR (lit "business-logic.prompt").
Definition style_prompt_path : str := path_join PROMPT_DIR (lit "styling.prompt").
Definition test_prompt_path : str := path_join PROMPT_DIR (lit "tests.prompt").

Definition html_path : str := path_join OUTPUT_DIR (lit "index.html").
Definition js_path : str := path_join OUTPUT_DIR (lit "app.js").
Definition css_path : str := path_join OUTPUT_DIR (lit "style.css").
Definition test_path : str := path_join OUTPUT_DIR (lit "tests/calculator.test.js").

(** The four blocks of [main] under the comments "Step 1" to "Step 4";
    each yields the variable that the later blocks read. *)
Definition step1 : M str :=
  print (NL ++ lit "[STEP 1/4] Generating HTML from UI prompt");;
  ui_prompt <- read_prompt_file ui_prompt_path;;
  print (lit "  Read prompt from: " ++ ui_prompt_path);;
  html_content <- generate_html ui_prompt;;
  let html_content := extract_code html_content in
  save_file html_content html_path;;
  print (lit "  HTML generation complete");;
  ret html_content.

Definition step2 (html_content : str) : M str :=
  print (NL ++ lit "[STEP 2/4] Generating JavaScript with HTML context");;
  logic_prompt <- read_prompt_file logic_prompt_path;;
  print (lit "  Read prompt from: " ++ logic_prompt_path);;
  js_content <- generate_javascript logic_prompt html_content;;
  let js_content := extract_code js_content in
  save_file js_content js_path;;
  print (lit "  JavaScript generation complete");;
  ret js_content.

Definition step3 (html_content js_content : str) : M str :=
  print (NL ++ lit "[STEP 3/4] Generating CSS with HTML and JavaScript context");;
  style_prompt <- read_prompt_file style_prompt_path;;
  print (lit "  Read prompt from: " ++ style_prompt_path);;
  css_content <- generate_css style_prompt html_content js_content;;
  let css_content := extract_code css_content in
  save_file css_content css_path;;
  print (lit "  CSS generation complete");;
  ret css_content.

Definition step4 (html_content js_content css_content : str) : M str :=
  print (NL ++ lit "[STEP 4/4] Generating tests with full application context");;
  test_prompt <- read_prompt_file test_prompt_path;;
  print (lit "  Read prompt from: " ++ test_prompt_path);;
  test_content <-
    generate_tests test_prompt html_content js_content css_content;;
  let test_content := extract_code test_content in
  save_file test_content test_path;;
  print (lit "  Test generation complete");;
  ret test_content.

Definition print_banner : M unit :=
  print (NL ++ repeat_str (lit "=") 80);;
  print (lit " LLM-BUILT CALCULATOR - SEQUENTIAL CODE GENERATION");;
  print (repeat_str (lit "=") 80 ++ NL);;
  print (lit "Using LLM model: " ++ DEFAULT_MODEL);;
  print (lit "Output directory: " ++ OUTPUT_DIR).

Definition print_summary : M unit :=
  print (NL ++ repeat_str (lit "=") 80);;
  print (lit " CODE GENERATION COMPLETED SUCCESSFULLY");;
  print (repeat_str (lit "=") 80 ++ NL);;
  print (lit "Generated files:");;
  print (lit "  - HTML: " ++ html_path);;
  print (lit "  - JavaScript: " ++ js_path);;
  print (lit "  - CSS: " ++ css_path);;
  print (lit "  - Tests: " ++ test_path);;
  print (NL ++ lit "Next steps:");;
  print (lit "  1. Run 'make serve' to start a development server");;
  print (lit "  2. Run 'make test' to run the tests").

(** The body of the [try] block. *)
Definition main_body : M unit :=
  print_banner;;
  html_content <- step1;;
  js_content <- step2 html_content;;
  css_content <- step3 html_content js_content;;
  test_content <- step4 html_content js_content css_content;;
  generate_config_files;;
  print_summary.

Definition report_error (e : exn) : M unit :=
  print (NL ++ lit "Error during code generation: " ++ exn_str e);;
  sys_exit 1.

(** [main]; [args] is what [parser.parse_args()] returned.  The two
    [os.makedirs] calls create directories, which the world does not
    record. *)
Definition main (args : Args) : M unit :=
  try_except main_body report_error.

(** The exit status of the process that runs [main()] as its script. *)
Definition exit_status (r : exn + unit) : Z :=
  match r with
  | inr _ => 0
  | inl (SystemExit code) => code
  | inl (Exception _ _) => 1
  end.

Definition run (args : Args) (w : World) : Z * World :=
  let (r, w') := main args w in (exit_status r, w').

End Script.

(** ** Vocabulary for the statements about runs *)

(** The primary stages, in pipeline order. *)
Inductive stage : Type := HTML | Script | Style | Tests.

Definition stage_index (k : stage) : nat :=
  match k with HTML => 0 | Script => 1 | Style => 2 | Tests => 3 end.

Section RunVocabulary.

Variable env : Env.

Definition stage_prompt_path (k : stage) : str :=
  match k with
  | HTML => ui_prompt_path
  | Script => logic_prompt_path
  | Style => style_prompt_path
  | Tests => test_prompt_path
  end.

Definition stage_output_path (k : stage) : str :=
  match k with
  | HTML => html_path
  | Script => js_path
  | Style => css_path
  | Tests => test_path
  end.

(** The instruction of a stage: the [system_prompt] variable of its
    generator. *)
Definition stage_instruction (k : stage) : str :=
  match k with
  | HTML => html_system_prompt
  | Script => js_system_prompt
  | Style => css_system_prompt
  | Tests => tests_system_prompt
  end.

(** The API key a call works with: the argument when it is given and not
    empty, else the environment's. *)
Definition effective_key (api_key : option str) : option str :=
  if falsy api_key then
    if falsy (environ env !! lit "LLM_API_KEY") then None
    else environ env !! lit "LLM_API_KEY"
  else api_key.

(** The request of a call that goes ahead with [key]. *)
Definition request_of (prompt system_message : str)
    (model endpoint : option str) (key : str) : Request :=
  {| req_endpoint := or_else endpoint (DEFAULT_API_ENDPOINT env);
     req_content_type := lit "application/json";
     req_authorization := lit "Bearer " ++ key;
     req_model := or_else model (DEFAULT_MODEL env);
     req_system := system_message;
     req_user := prompt;
     req_temperature := (2, 10);
     req_max_tokens := 4000 |}.

(** The world once the banner is printed: where the first step starts. *)
Definition after_banner (w : World) : World := snd (print_banner env w).

(** The four steps in order, yielding the four artifacts. *)
Definition primary : M (str * str * str * str) :=
  html_content <- step1 env;;
  js_content <- step2 env html_content;;
  css_content <- step3 env html_content js_content;;
  test_content <- step4 env html_content js_content css_content;;
  ret (html_content, js_content, css_content, test_content).

(** The step of stage [k], given the artifacts made so far. *)
Definition run_stage (k : stage) (artifact : stage -> str) : M str :=
  match k with
  | HTML => step1 env
  | Script => step2 env (artifact HTML)
  | Style => step3 env (artifact HTML) (artifact Script)
  | Tests =>
      step4 env (artifact HTML) (artifact Script) (artifact Style)
  end.

(** The two messages of the request of stage [k]: the [system_message]
    argument and the [full_prompt] its generator passes on. *)
Definition stage_system (k : stage) : str :=
  match k with
  | HTML => default_system_message
  | Script => js_system_prompt
  | Style => css_system_prompt
  | Tests => tests_system_prompt
  end.

Definition stage_user (k : stage) (artifact : stage -> str) (prompt : str)
    : str :=
  match k with
  | HTML => html_full_prompt prompt
  | Script => js_context_text (artifact HTML) ++ NL ++ prompt
  | Style =>
      css_context_text (artifact HTML) (artifact Script) ++ NL ++ prompt
  | Tests =>
      tests_context_text (artifact HTML) (artifact Script) (artifact Style)
      ++ NL ++ prompt
  end.

Definition stage_request (k : stage) (artifact : stage -> str)
    (prompt key : str) : Request :=
  request_of (stage_user k artifact prompt) (stage_system k) None None key.

(** The request for one configuration file. *)
Definition config_request (c : Config) (key : str) : Request :=
  request_of (cfg_prompt c) config_system_message
             (Some (DEFAULT_MODEL env)) None key.

(** Stage [k] fails from [w] with [e], leaving [w']: the steps before it
    return in turn and the step of [k] raises. *)
Inductive stage_fails : stage -> World -> exn -> World -> Prop :=
| fails_html w e w' :
    step1 env w = (inl e, w') ->
    stage_fails HTML w e w'
| fails_script w html w1 e w' :
    step1 env w = (inr html, w1) ->
    step2 env html w1 = (inl e, w') ->
    stage_fails Script w e w'
| fails_style w html w1 js w2 e w' :
    step1 env w = (inr html, w1) ->
    step2 env html w1 = (inr js, w2) ->
    step3 env html js w2 = (inl e, w') ->
    stage_fails Style w e w'
| fails_tests w html w1 js w2 css w3 e w' :
    step1 env w = (inr html, w1) ->
    step2 env html w1 = (inr js, w2) ->
    step3 env html js w2 = (inr css, w3) ->
    step4 env html js css w3 = (inl e, w') ->
    stage_fails Tests w e w'.

End RunVocabulary.

(** The four artifacts of a run as a function of the stage. *)
Definition artifacts_of (html js css tests : str) (k : stage) : str :=
  match k with
  | HTML => html
  | Script => js
  | Style => css
  | Tests => tests
  end.

(** The line [main] prints when it catches [e]. *)
Definition error_line (e : exn) : str :=
  NL ++ lit "Error during code generation: " ++ exn_str e.

(** *** The context of a stage, as the specification describes it *)

(** Each prior artifact is rendered inside a labelled block that names its
    kind. *)
Definition artifact_label (k : stage) : str :=
  match k with
  | HTML => lit "HTML structure"
  | Script => lit "JavaScript code"
  | Style => lit "CSS code"
  | Tests => lit "test code"
  end.

Definition artifact_lang (k : stage) : str :=
  match k with
  | HTML => lit "html"
  | Script => lit "javascript"
  | Style => lit "css"
  | Tests => lit "javascript"
  end.

Definition labelled_block (a : stage * str) : str :=
  lit "Here's the " ++ artifact_label a.1 ++ lit ":" ++ NL ++
  fence ++ artifact_lang a.1 ++ NL ++
  a.2 ++ NL ++
  fence ++ NL ++ NL.

Definition render_context (ctx : list (stage * str)) : str :=
  concat (labelled_block <$> ctx).

(** The fixed text of a stage before the context and after it. *)
Definition stage_preamble (k : stage) : str :=
  match k with
  | HTML => html_system_prompt ++ NL
  | Script =>
      NL ++
      lit "I'll provide you with the HTML structure of a calculator application followed by requirements" ++
      NL ++
      lit "for implementing its JavaScript business logic. Make sure your JavaScript code properly " ++
      NL ++
      lit "interacts with the HTML elements by using the correct IDs and classes." ++
      NL ++ NL
  | Style =>
      NL ++
      lit "I'll provide you with the HTML and JavaScript code for a calculator application followed by" ++
      NL ++
      lit "requirements for implementing its CSS styling. Make sure your CSS properly styles" ++
      NL ++
      lit "the HTML elements by using the correct IDs, classes, and elements." ++
      NL ++ NL
  | Tests =>
      NL ++
      lit "I'll provide you with the complete implementation of a calculator application (HTML, JavaScript, and CSS)" ++
      NL ++
      lit "followed by requirements for implementing tests. Make sure your tests properly validate" ++
      NL ++
      lit "the calculator's functionality by checking all specified requirements." ++
      NL ++ NL
  end.

Definition stage_closing (k : stage) : str :=
  match k with
  | HTML => []
  | Script =>
      lit "Now, here are the requirements for the JavaScript business logic:" ++ NL
  | Style =>
      lit "Now, here are the requirements for the CSS styling:" ++ NL
  | Tests =>
      lit "Now, here are the requirements for the tests:" ++ NL
  end.

(** The user message of stage [k] for a context and a prompt: the preamble,
    the context rendered in order, the closing line, the prompt. *)
Definition stage_message (k : stage) (ctx : list (stage * str))
    (prompt : str) : str :=
  stage_preamble k ++ render_context ctx ++ stage_closing k ++ NL ++ prompt.

(** The artifacts a run has produced before stage [k], in creation
    order. *)
Definition context_before (k : stage) (artifact : stage -> str)
    : list (stage * str) :=
  take (stage_index k)
       [(HTML, artifact HTML); (Script, artifact Script);
        (Style, artifact Style); (Tests, artifact Tests)].

(** *** Vocabulary for the statements about whole runs *)

(** The seven paths a run may write. *)
Definition written_paths : list str :=
  [html_path; js_path; css_path; test_path] ++ (cfg_name <$> config_files).


(** A request as every call of a run builds it: the endpoint, model and
    key of the environment and the fixed sampling parameters. *)
Definition from_environment (env : Env) (key : str) (q : Request) : Prop :=
  req_endpoint q = DEFAULT_API_ENDPOINT env /\
  req_model q = DEFAULT_MODEL env /\
  req_authorization q = lit "Bearer " ++ key /\
  req_content_type q = lit "application/json" /\
  req_temperature q = (2, 10) /\
  req_max_tokens q = 4000.


(** What a piece of the script may have done between [w] and [w']: it
    wrote nothing to standard error, changed no file outside [paths], and
    appended at most [n] requests, each built from the environment. *)
Definition effect (env : Env) (paths : list str) (n : nat)
    (w w' : World) : Prop :=
  stderr w' = stderr w /\
  (forall p, p ∉ paths -> files w' !! p = files w !! p) /\
  exists qs,
    requests w' = requests w ++ qs /\
    (length qs <= n)%nat /\
    forall q, q ∈ qs ->
      exists key, effective_key env None = Some key /\
                  from_environment env key q.

(** *** What a step amounts to *)








(** ** Sample runs *)

Definition sample_environ : gmap str str :=
  {[ lit "LLM_API_KEY" := lit "sk-env" ]}.

Definition sample_files : gmap str str :=
  <[ui_prompt_path := lit "A calculator page.
"]> (<[logic_prompt_path := lit "Add and subtract.
"]> (<[style_prompt_path := lit "Dark theme.
"]> (<[test_prompt_path := lit "Test addition.
"]> ∅))).

(** The answer of the sample service to the [n]-th request. *)
Definition sample_reply (n : nat) : str :=
  match n with
  | 0%nat => lit "```html
<p>calc</p>
```"
  | 1%nat => lit "```javascript
let x = 1;
```"
  | 2%nat => lit "```css
p { color: red; }
```"
  | 3%nat => lit "```javascript
test(add);
```"
  | _ => lit "{}"
  end.

(** A service that answers every request but the one numbered [down_at],
    at which the connection fails. *)
Definition sample_server (down_at : option nat) (n : nat) (q : Request)
    : outcome :=
  if decide (down_at = Some n)
  then Raises (lit "ConnectionError") (lit "connection refused")
  else Replies (lit "0.01") (sample_reply n).

Definition sample_env (down_at : option nat) : Env :=
  mkEnv sample_environ (sample_server down_at) (fun _ => true).

Definition sample_world : World := mkWorld sample_files [] [] [].

Definition no_args : Args := mkArgs None None None.

Definition override_args : Args :=
  mkArgs (Some (lit "gpt-4o-mini")) (Some (lit "sk-cli"))
         (Some (lit "http://localhost:8080/v1")).

(** ** Facts about the string primitives *)

Section StringFacts.

Implicit Types (s t sub pre post : str) (c : N) (i : Z).

Lemma startswith_spec sub s :
  startswith sub s = true <-> exists post, s = sub ++ post.
Proof.
  revert s; induction sub as [|a sub IH]; intros s; simpl.
  - split; [intros _; by exists s | done].
  - destruct s as [|b s]; simpl.
    + split; [done | intros [post H]; discriminate H].
    + rewrite andb_true_iff, N.eqb_eq, IH. split.
      * intros [-> [post ->]]. by exists post.
      * intros [post H]. injection H as -> ->. eauto.
Qed.

Lemma startswith_app sub post : startswith sub (sub ++ post) = true.
Proof. apply startswith_spec. by exists post. Qed.

Lemma startswith_refl sub : startswith sub sub = true.
Proof. apply startswith_spec. exists []. by rewrite app_nil_r. Qed.

Lemma startswith_length sub s :
  startswith sub s = true -> (length sub <= length s)%nat.
Proof.
  intros [post ->]%startswith_spec. rewrite length_app. lia.
Qed.

Lemma contains_spec sub s : contains sub s = true <-> substring sub s.
Proof.
  induction s as [|b s IH]; simpl.
  - rewrite orb_false_r, startswith_spec. split.
    + intros [post H]. by exists [], post.
    + intros [pre [post H]]. destruct pre; [by exists post | discriminate H].
  - rewrite orb_true_iff, IH, startswith_spec. split.
    + intros [[post H] | [pre [post H]]].
      * by exists [], post.
      * exists (b :: pre), post. by rewrite H.
    + intros [pre [post H]]. destruct pre as [|p pre]; simpl in H.
      * left. by exists post.
      * right. injection H as _ ->. by exists pre, post.
Qed.

Lemma contains_false_spec sub s :
  contains sub s = false <-> ~ substring sub s.
Proof.
  rewrite <- contains_spec. destruct (contains sub s); naive_solver.
Qed.

Lemma contains_length sub s :
  contains sub s = true -> (length sub <= length s)%nat.
Proof.
  intros (pre & post & ->)%contains_spec. rewrite !length_app. lia.
Qed.

(** [find_from] answers [-1] exactly when there is no occurrence, and an
    index inside the text otherwise. *)
Lemma find_from_none sub s i :
  contains sub s = false -> find_from sub s i = -1.
Proof.
  revert i; induction s as [|b s IH]; intros i; simpl.
  - rewrite orb_false_r. by intros ->.
  - intros [-> H]%orb_false_iff. by apply IH.
Qed.

Lemma find_from_bounds sub s i :
  contains sub s = true ->
  i <= find_from sub s i <= i + Z.of_nat (length s) - Z.of_nat (length sub).
Proof.
  revert i; induction s as [|b s IH]; intros i; simpl.
  - rewrite orb_false_r. intros H. rewrite H.
    apply startswith_length in H. simpl in H. lia.
  - destruct (startswith sub (b :: s)) eqn:E; simpl.
    + intros _. apply startswith_length in E. simpl in E. lia.
    + intros H. specialize (IH (i + 1) H). lia.
Qed.

Lemma find_from_startswith sub s i :
  startswith sub s = true -> find_from sub s i = i.
Proof. destruct s; simpl; by intros ->. Qed.

(** The first occurrence of a character that the text before it avoids. *)
Lemma find_from_char c pre post i :
  c ∉ pre ->
  find_from [c] (pre ++ c :: post) i = i + Z.of_nat (length pre).
Proof.
  revert i; induction pre as [|p pre IH]; intros i Hc.
  - simpl. rewrite N.eqb_refl. simpl. lia.
  - apply not_elem_of_cons in Hc as [Hne Hc]. simpl.
    destruct (N.eqb_spec c p) as [->|_]; [done|]. simpl.
    rewrite IH by done. lia.
Qed.

Lemma rfind_from_none sub s i :
  contains sub s = false -> rfind_from sub s i = -1.
Proof.
  revert i; induction s as [|b s IH]; intros i; simpl.
  - rewrite orb_false_r. by intros ->.
  - intros [-> H]%orb_false_iff. by rewrite IH.
Qed.

Lemma rfind_from_bounds sub s i :
  0 <= i -> contains sub s = true ->
  i <= rfind_from sub s i <= i + Z.of_nat (length s) - Z.of_nat (length sub).
Proof.
  revert i; induction s as [|b s IH]; intros i Hi; simpl.
  - rewrite orb_false_r. intros H. rewrite H.
    apply startswith_length in H. simpl in H. lia.
  - intros H. destruct (contains sub s) eqn:E.
    + specialize (IH (i + 1) ltac:(lia) eq_refl).
      destruct (Z.leb_spec 0 (rfind_from sub s (i + 1))); lia.
    + rewrite rfind_from_none by done. simpl.
      rewrite orb_false_r in H. rewrite H.
      apply startswith_length in H. simpl in H. lia.
Qed.

(** The last occurrence, when the text ends with [sub]. *)
Lemma rfind_from_suffix sub pre i :
  0 <= i -> sub <> [] ->
  rfind_from sub (pre ++ sub) i = i + Z.of_nat (length pre).
Proof.
  intros Hi Hsub. revert i Hi; induction pre as [|p pre IH]; intros i Hi.
  - destruct sub as [|a sub]; [done|]. simpl.
    rewrite rfind_from_none.
    + simpl. rewrite N.eqb_refl, startswith_refl. simpl. lia.
    + destruct (contains (a :: sub) sub) eqn:E; [|done].
      apply contains_length in E. simpl in E. lia.
  - simpl. rewrite IH by lia.
    destruct (Z.leb_spec 0 (i + 1 + Z.of_nat (length pre))); lia.
Qed.

(** [find] from a position at which the text still holds [sub]. *)
Lemma find_ge s sub start :
  0 <= start -> sub <> [] ->
  contains sub (drop (Z.to_nat start) s) = true ->
  start <= find s sub start.
Proof.
  intros Hs Hne Hc. unfold find.
  destruct (Z.ltb_spec start 0); [lia|].
  destruct (Z.ltb_spec (Z.of_nat (length s)) start).
  - rewrite drop_ge in Hc by lia.
    apply contains_length in Hc as Hl. simpl in Hl.
    destruct sub; [done | simpl in Hl; lia].
  - pose proof (find_from_bounds _ _ start Hc). lia.
Qed.

Lemma find_0 s sub : find s sub 0 = find_from sub s 0.
Proof.
  unfold find. simpl.
  destruct (Z.ltb_spec (Z.of_nat (length s)) 0); [lia|]. done.
Qed.

(** *** Slices *)

Lemma slice_empty s a b : 0 <= b <= a -> slice s a b = [].
Proof.
  intros H. unfold slice, slice_bound.
  destruct (Z.ltb_spec a 0), (Z.ltb_spec b 0); try lia.
  replace (Z.to_nat _) with 0%nat by lia. done.
Qed.

Lemma slice_length s a b :
  0 <= a -> (length (slice s a b) <= length s - Z.to_nat a)%nat.
Proof.
  intros H. unfold slice, slice_bound.
  destruct (Z.ltb_spec a 0); [lia|].
  rewrite length_take, length_drop. lia.
Qed.

Lemma slice_drop_take s a k :
  0 <= a -> 0 <= k ->
  slice s a (a + k) = take (Z.to_nat k) (drop (Z.to_nat a) s).
Proof.
  intros Ha Hk. unfold slice, slice_bound.
  destruct (Z.ltb_spec a 0), (Z.ltb_spec (a + k) 0); try lia.
  destruct (Z.le_gt_cases (a + k) (Z.of_nat (length s))).
  - do 2 f_equal; lia.
  - destruct (Z.le_gt_cases a (Z.of_nat (length s))).
    + rewrite (Z.min_l a), (Z.min_r (a + k)) by lia.
      rewrite (take_ge _ (Z.to_nat k)) by (rewrite length_drop; lia).
      apply take_ge. rewrite length_drop. lia.
    + rewrite !drop_ge by lia. by rewrite !take_nil.
Qed.

(** The middle of a three-part text, cut out by its two boundaries. *)
Lemma slice_middle pre mid post :
  slice (pre ++ mid ++ post) (Z.of_nat (length pre))
        (Z.of_nat (length pre + length mid)) = mid.
Proof.
  rewrite Nat2Z.inj_add, slice_drop_take by lia.
  rewrite !Nat2Z.id, drop_app_length, take_app_length. done.
Qed.

Lemma contains_take sub s n :
  contains sub (take n s) = true -> contains sub s = true.
Proof.
  rewrite !contains_spec. intros (pre & post & H).
  exists pre, (post ++ drop n s).
  rewrite <- (take_drop n s) at 1. rewrite H. by rewrite <- !app_assoc.
Qed.

(** *** Whitespace trimming *)

Lemma lstrip_decomp s :
  exists a, s = a ++ lstrip s /\ allspace a = true /\
            headspace (lstrip s) = false.
Proof.
  induction s as [|c s (a & H & Ha & Hh)]; simpl.
  - by exists [].
  - destruct (isspace c) eqn:E.
    + exists (c :: a). simpl. rewrite E, Ha. by rewrite <- H.
    + exists []. simpl. by rewrite E.
Qed.

Lemma lstrip_allspace_app a s : allspace a = true -> lstrip (a ++ s) = lstrip s.
Proof.
  induction a as [|c a IH]; simpl; [done|].
  intros [-> H]%andb_true_iff. by apply IH.
Qed.

Lemma lstrip_allspace a : allspace a = true -> lstrip a = [].
Proof.
  intros H. rewrite <- (app_nil_r a). by rewrite lstrip_allspace_app.
Qed.

Lemma lstrip_head s : headspace s = false -> lstrip s = s.
Proof. destruct s as [|c s]; simpl; [done|]. by intros ->. Qed.

Lemma allspace_reverse a : allspace (reverse a) = allspace a.
Proof.
  unfold allspace. induction a as [|c a IH]; simpl; [done|].
  rewrite reverse_cons, forallb_app, IH. simpl.
  rewrite andb_true_r. apply andb_comm.
Qed.

Lemma allspace_app a b : allspace (a ++ b) = allspace a && allspace b.
Proof. apply forallb_app. Qed.

(** [strip] is characterised by the decomposition it computes: whitespace,
    a trimmed core, whitespace. *)
Lemma strip_unique a m b :
  allspace a = true -> allspace b = true -> trimmed m ->
  strip (a ++ m ++ b) = m.
Proof.
  intros Ha Hb [Hh Hl]. unfold strip, rstrip.
  rewrite lstrip_allspace_app by done.
  destruct m as [|c m].
  - simpl. by rewrite (lstrip_allspace b).
  - rewrite (lstrip_head ((c :: m) ++ b)) by exact Hh.
    rewrite reverse_app, lstrip_allspace_app by by rewrite allspace_reverse.
    rewrite lstrip_head by exact Hl. apply reverse_involutive.
Qed.

Lemma strip_decomp s :
  exists a b, s = a ++ strip s ++ b /\ allspace a = true /\
              allspace b = true /\ trimmed (strip s).
Proof.
  destruct (lstrip_decomp s) as (a & Hs & Ha & Hh).
  destruct (lstrip_decomp (reverse (lstrip s))) as (b & Hr & Hb & Hl).
  assert (Ht : lstrip s = strip s ++ reverse b).
  { unfold strip, rstrip. rewrite <- reverse_app, <- Hr.
    by rewrite reverse_involutive. }
  exists a, (reverse b). repeat split.
  - by rewrite <- Ht.
  - done.
  - by rewrite allspace_reverse.
  - destruct (strip s) as [|c m] eqn:E; [done|].
    rewrite Ht in Hh. exact Hh.
  - unfold strip, rstrip. by rewrite reverse_involutive.
Qed.

Lemma strip_trimmed s : trimmed (strip s).
Proof. by destruct (strip_decomp s) as (a & b & _ & _ & _ & H). Qed.

Lemma strip_id m : trimmed m -> strip m = m.
Proof.
  intros H. pose proof (strip_unique [] m [] eq_refl eq_refl H) as E.
  by rewrite app_nil_r in E.
Qed.

Lemma strip_idem s : strip (strip s) = strip s.
Proof. apply strip_id, strip_trimmed. Qed.

Lemma strip_length s : (length (strip s) <= length s)%nat.
Proof.
  destruct (strip_decomp s) as (a & b & H & _).
  rewrite H at 2. rewrite !length_app. lia.
Qed.

(** Whitespace around a text does not change what [strip] returns. *)
Lemma strip_pad a s b :
  allspace a = true -> allspace b = true -> strip (a ++ s ++ b) = strip s.
Proof.
  intros Ha Hb.
  destruct (strip_decomp s) as (a' & b' & H & Ha' & Hb' & Ht).
  rewrite H at 1.
  replace (a ++ (a' ++ strip s ++ b') ++ b)
    with ((a ++ a') ++ strip s ++ (b' ++ b)) by by rewrite <- !app_assoc.
  apply strip_unique; [| |done]; rewrite allspace_app; by apply andb_true_iff.
Qed.

Lemma strip_nil_iff s : strip s = [] <-> allspace s = true.
Proof.
  split.
  - intros E. destruct (strip_decomp s) as (a & b & H & Ha & Hb & _).
    rewrite H, E, !allspace_app, Ha, Hb. done.
  - intros H. pose proof (strip_unique s [] [] H eq_refl) as E.
    rewrite app_nil_r in E. by apply E.
Qed.

End StringFacts.

(** ** CodeExtractor *)

Section ExtractCode.

Implicit Types (x lang code : str).

Lemma fence_length : length fence = 3%nat.
Proof. reflexivity. Qed.

Lemma fence_nonempty : fence <> [].
Proof. discriminate. Qed.

Lemma find_fence_ge x : contains fence x = true -> 0 <= find x fence 0.
Proof.
  intros H. rewrite find_0. pose proof (find_from_bounds _ _ 0 H). lia.
Qed.

Lemma rfind_fence_ge x : contains fence x = true -> 0 <= rfind x fence.
Proof.
  intros H. pose proof (rfind_from_bounds _ _ 0 ltac:(lia) H).
  unfold rfind. lia.
Qed.

(** With a fence in the text, the result is the trimmed slice from a start
    index, at least three past the first fence, to the last fence. *)
Lemma extract_code_fenced x :
  contains fence x = true ->
  exists start,
    find x fence 0 + 3 <= start /\
    extract_code x = strip (slice x start (rfind x fence)).
Proof.
  intros H. unfold extract_code. rewrite H.
  pose proof (find_fence_ge x H) as H0.
  set (start := find x fence 0 + 3) in *.
  destruct (truthy _ && _) eqn:E.
  - exists (find x NL start + 1). split; [|done].
    apply andb_true_iff in E as [_ E].
    rewrite slice_drop_take in E by lia.
    apply contains_take in E.
    apply find_ge in E; [lia | lia | discriminate].
  - exists start. split; [lia | done].
Qed.

Lemma extract_code_unfenced x :
  contains fence x = false -> extract_code x = strip x.
Proof. intros H. unfold extract_code. by rewrite H. Qed.

Lemma extract_code_trimmed x : trimmed (extract_code x).
Proof.
  unfold extract_code. destruct (contains fence x); apply strip_trimmed.
Qed.

(** A text that holds a fence loses at least three characters. *)
Lemma extract_code_shrinks x :
  contains fence x = true ->
  (length (extract_code x) + 3 <= length x)%nat.
Proof.
  intros H. destruct (extract_code_fenced x H) as (start & Hs & ->).
  pose proof (find_fence_ge x H).
  pose proof (contains_length _ _ H) as Hl. rewrite fence_length in Hl.
  pose proof (strip_length (slice x start (rfind x fence))).
  pose proof (slice_length x start (rfind x fence) ltac:(lia)).
  lia.
Qed.

End ExtractCode.

(** C7: a text that holds no fence delimiter is returned trimmed. *)
Theorem extract_code_no_fence (x : str) :
  ~ substring fence x -> extract_code x = strip x.
Proof.
  intros H. apply extract_code_unfenced. by apply contains_false_spec.
Qed.

Lemma extract_code_no_fence_witness :
  extract_code (lit "  let total = `a` + 1;  ") = lit "let total = `a` + 1;".
Proof.
  rewrite (extract_code_no_fence (lit "  let total = `a` + 1;  ")).
  - vm_compute. reflexivity.
  - apply contains_false_spec. vm_compute. reflexivity.
Defined.

(** C10: when the text holds a fence and the first and the last occurrence
    are the same one, the whole reply is dropped: the result is empty. *)
Theorem extract_code_single_fence (x : str) :
  substring fence x ->
  find x fence 0 = rfind x fence ->
  extract_code x = [].
Proof.
  intros H%contains_spec Heq.
  destruct (extract_code_fenced x H) as (start & Hs & ->).
  pose proof (rfind_fence_ge x H).
  rewrite slice_empty by lia. reflexivity.
Qed.

Lemma extract_code_single_fence_witness :
  extract_code (lit "Here is the page: ```html <p>hi</p>") = [].
Proof.
  apply extract_code_single_fence.
  - apply contains_spec. vm_compute. reflexivity.
  - vm_compute. reflexivity.
Defined.

(** C5, as the code has it: [extract_code] is idempotent at [x] exactly when
    its result at [x] holds no fence delimiter; in particular at every [x]
    without a fence. *)
Theorem extract_code_idempotent_iff (x : str) :
  extract_code (extract_code x) = extract_code x <->
  ~ substring fence (extract_code x).
Proof.
  rewrite <- contains_false_spec. split.
  - intros E. destruct (contains fence (extract_code x)) eqn:C; [|done].
    apply extract_code_shrinks in C. rewrite E in C. lia.
  - intros C. rewrite (extract_code_unfenced _ C).
    apply strip_id, extract_code_trimmed.
Qed.

Lemma extract_code_idempotent_iff_witness :
  extract_code (extract_code (lit "```js
let x = 1;
```")) = extract_code (lit "```js
let x = 1;
```").
Proof.
  apply extract_code_idempotent_iff.
  apply contains_false_spec. vm_compute. reflexivity.
Defined.

(** C5 as stated fails: a reply with three fences is unwrapped to a text
    that still holds one, and unwrapping that again gives the empty text. *)
Lemma extract_code_not_idempotent :
  extract_code (lit "```a```b```") = lit "a```b" /\
  extract_code (extract_code (lit "```a```b```")) = [] /\
  extract_code (extract_code (lit "```a```b```"))
    <> extract_code (lit "```a```b```").
Proof. vm_compute. repeat split. discriminate. Qed.

(** *** A single fenced block *)

Section FencedBlock.

Variables lang code : str.

(** The reply [fence lang NL code NL fence], and what follows its opening
    fence. *)
Local Abbreviation rest := (lang ++ NL ++ code ++ NL ++ fence).
Local Abbreviation reply := (fence ++ lang ++ NL ++ code ++ NL ++ fence).

Hypothesis lang_one_line : 10%N ∉ lang.

Lemma block_contains : contains fence reply = true.
Proof. apply contains_spec. by exists [], rest. Qed.

Lemma block_find : find reply fence 0 = 0.
Proof. rewrite find_0. apply find_from_startswith, startswith_app. Qed.

Lemma block_length :
  length reply = (3 + length lang + 1 + length code + 1 + 3)%nat.
Proof. rewrite !length_app. simpl. lia. Qed.

Lemma block_rfind : rfind reply fence = Z.of_nat (length reply) - 3.
Proof.
  unfold rfind.
  replace reply with ((fence ++ lang ++ NL ++ code ++ NL) ++ fence)
    by (by rewrite <- !app_assoc).
  rewrite rfind_from_suffix by (lia || discriminate).
  rewrite (length_app _ fence), fence_length. lia.
Qed.

Lemma block_window k :
  0 <= k -> slice reply 3 (3 + k) = take (Z.to_nat k) rest.
Proof.
  intros Hk. rewrite slice_drop_take by lia.
  change (Z.to_nat 3) with (length fence). 
  by rewrite drop_app_length.
Qed.

Lemma block_find_newline :
  find reply NL 3 = 3 + Z.of_nat (length lang).
Proof.
  unfold find. pose proof block_length.
  destruct (Z.ltb_spec 3 0); [lia|].
  destruct (Z.ltb_spec (Z.of_nat (length reply)) 3); [lia|].
  change (Z.to_nat 3) with (length fence). 
  rewrite drop_app_length. apply (find_from_char 10%N). done.
Qed.

(** The slice after the tag line: the code and its newline. *)
Lemma block_body :
  slice reply (3 + Z.of_nat (length lang) + 1) (rfind reply fence)
  = code ++ NL.
Proof.
  rewrite block_rfind.
  pose proof (slice_middle (fence ++ lang ++ NL) (code ++ NL) fence) as E.
  replace ((fence ++ lang ++ NL) ++ (code ++ NL) ++ fence) with reply in E
    by (by rewrite <- !app_assoc).
  rewrite <- E. f_equal; rewrite ?block_length, !length_app; simpl; lia.
Qed.

(** The slice from the first fence on: tag line, code and newline. *)
Lemma block_body_with_tag :
  slice reply 3 (rfind reply fence) = lang ++ NL ++ code ++ NL.
Proof.
  rewrite block_rfind.
  pose proof (slice_middle fence (lang ++ NL ++ code ++ NL) fence) as E.
  replace (fence ++ (lang ++ NL ++ code ++ NL) ++ fence) with reply in E
    by (by rewrite <- !app_assoc).
  rewrite <- E. f_equal; rewrite ?block_length, !length_app; simpl; lia.
Qed.

(** What [extract_code] returns on the block, by whether it skips the
    tag line. *)
Lemma block_extract :
  extract_code reply =
  if truthy (strip (take 10 rest)) && contains NL (take 20 rest)
  then strip code
  else strip (lang ++ NL ++ code ++ NL).
Proof.
  unfold extract_code. rewrite block_contains, block_find.
  change (0 + 3) with 3. rewrite !block_window by lia.
  change (Z.to_nat 10) with 10%nat. change (Z.to_nat 20) with 20%nat.
  destruct (truthy _ && _).
  - rewrite block_find_newline, block_body.
    apply (strip_pad [] code NL); reflexivity.
  - by rewrite block_body_with_tag.
Qed.

Lemma block_skips :
  (length lang <= 19)%nat -> allspace (take 10 lang) = false ->
  truthy (strip (take 10 rest)) && contains NL (take 20 rest) = true.
Proof.
  intros Hl Hs. apply andb_true_iff. split.
  - destruct (strip (take 10 rest)) eqn:E; [|done].
    apply strip_nil_iff in E. 
    rewrite take_app, allspace_app, Hs in E. done.
  - apply contains_spec.  rewrite take_app.
    rewrite (take_ge lang) by lia.
    destruct (20 - length lang)%nat as [|n] eqn:En; [lia|].
    exists lang, (take n (code ++ NL ++ fence)). done.
Qed.

Lemma block_blank_tag :
  allspace lang = true -> strip (lang ++ NL ++ code ++ NL) = strip code.
Proof.
  intros H.
  replace (lang ++ NL ++ code ++ NL) with ((lang ++ NL) ++ code ++ NL)
    by by rewrite <- !app_assoc.
  apply strip_pad; [|done]. rewrite allspace_app, H. done.
Qed.

Lemma contains_char c (s : str) : contains [c] s = true -> c ∈ s.
Proof.
  intros (pre & post & ->)%contains_spec.
  apply elem_of_app. right. by left.
Qed.

(** The tag line is kept when it is not blank and lies outside what the
    code inspects. *)
Lemma block_keeps_tag :
  allspace lang = false ->
  (20 <= length lang)%nat \/ allspace (take 10 lang) = true ->
  truthy (strip (take 10 rest)) && contains NL (take 20 rest) = false.
Proof.
  intros Hs [Hl | Ht].
  - apply andb_false_iff. right.
    rewrite take_app_le by lia.
    destruct (contains NL (take 20 lang)) eqn:E; [|done].
    by apply contains_take, contains_char in E.
  - apply andb_false_iff. left.
    assert (10 <= length lang)%nat.
    { destruct (le_lt_dec 10 (length lang)); [done|].
      rewrite take_ge in Ht by lia. congruence. }
    rewrite take_app_le by lia.
    apply strip_nil_iff in Ht. by rewrite Ht.
Qed.

Lemma headspace_app (x y : str) :
  x <> [] -> headspace (x ++ y) = headspace x.
Proof. by destruct x. Qed.

(** A tag line that is kept shows in the result. *)
Lemma block_tag_shows :
  allspace lang = false ->
  strip (lang ++ NL ++ code ++ NL) <> strip code.
Proof.
  intros Hs.
  destruct (strip_decomp lang) as (a & b & Hlang & Ha & Hb & [Hh Hl]).
  assert (Hne : strip lang <> []).
  { intros E%strip_nil_iff. congruence. }
  destruct (allspace code) eqn:Hc.
  - replace (lang ++ NL ++ code ++ NL)
      with (a ++ strip lang ++ (b ++ NL ++ code ++ NL))
      by (rewrite Hlang at 2; by rewrite <- !app_assoc).
    rewrite strip_unique; [| done | by rewrite !allspace_app, Hb, Hc | done].
    apply strip_nil_iff in Hc. by rewrite Hc.
  - destruct (strip_decomp code) as (a' & b' & Hcode & Ha' & Hb' & [Hh' Hl']).
    assert (Hne' : strip code <> []).
    { intros E%strip_nil_iff. congruence. }
    replace (lang ++ NL ++ code ++ NL)
      with (a ++ (strip lang ++ (b ++ NL ++ a') ++ strip code) ++ (b' ++ NL))
      by (rewrite Hlang at 2; rewrite Hcode at 2; by rewrite <- !app_assoc).
    rewrite strip_unique; [| done | by rewrite allspace_app, Hb' | ].
    + intros E. apply (f_equal length) in E. rewrite !length_app in E.
      destruct (strip lang); [done | simpl in E; lia].
    + split.
      * by rewrite headspace_app.
      * rewrite !reverse_app, <- !app_assoc.
        rewrite headspace_app; [done|].
        intros E. apply (f_equal reverse) in E.
        by rewrite reverse_involutive in E.
Qed.

End FencedBlock.

(** C6, as the code has it: for a reply that is one fenced block with a
    tag line [lang] (no newline in it), the result is the trimmed code
    exactly when the tag line is blank, or is at most 19 characters long
    with a non-whitespace character among its first ten. *)
Theorem extract_code_single_block (lang code : str) :
  10%N ∉ lang ->
  extract_code (fence ++ lang ++ NL ++ code ++ NL ++ fence) = strip code
  <->
  allspace lang = true \/
    ((length lang <= 19)%nat /\ allspace (take 10 lang) = false).
Proof.
  intros Hnl. rewrite block_extract by done. split.
  - intros E. destruct (allspace lang) eqn:Hs; [by left | right].
    destruct (le_lt_dec (length lang) 19) as [Hl | Hl],
             (allspace (take 10 lang)) eqn:Ht; [| done | |].
    all: rewrite block_keeps_tag in E by (done || (left; lia) || by right).
    all: by apply block_tag_shows in E.
  - intros [H | [Hl Hs]].
    + destruct (_ && _); [done | by apply block_blank_tag].
    + by rewrite block_skips.
Qed.

Lemma extract_code_single_block_witness :
  extract_code (fence ++ lit "javascript" ++ NL ++
                lit "  let x = 1;  " ++ NL ++ fence)
  = lit "let x = 1;".
Proof.
  etrans;
    [apply (extract_code_single_block (lit "javascript")
                                      (lit "  let x = 1;  "))|].
  - apply (bool_decide_unpack _). vm_compute. exact I.
  - right. vm_compute. split; [lia | reflexivity].
  - vm_compute. reflexivity.
Defined.

(** C6 as stated fails on a tag line of twenty characters or more: the
    newline lies outside the window the code inspects, the tag line is not
    skipped, and it stays in the result. *)
Lemma extract_code_long_tag :
  extract_code (fence ++ lit "javascript title=app.js" ++ NL ++
                lit "let x = 1;" ++ NL ++ fence)
  = lit "javascript title=app.js" ++ NL ++ lit "let x = 1;"
  /\ extract_code (fence ++ lit "javascript title=app.js" ++ NL ++
                   lit "let x = 1;" ++ NL ++ fence)
     <> strip (lit "let x = 1;").
Proof. vm_compute. split; [reflexivity | discriminate]. Qed.

(** ** Facts about computations *)

Local Open Scope py_scope.

Section MonadFacts.

Context {A B : Type}.

Lemma bind_inr (c : M A) (k : A -> M B) w b w' :
  bind c k w = (inr b, w') ->
  exists a w1, c w = (inr a, w1) /\ k a w1 = (inr b, w').
Proof.
  unfold bind. destruct (c w) as [[e|a] w1]; [done|]. eauto.
Qed.

Lemma bind_inl (c : M A) (k : A -> M B) w e w' :
  bind c k w = (inl e, w') ->
  c w = (inl e, w') \/
  exists a w1, c w = (inr a, w1) /\ k a w1 = (inl e, w').
Proof.
  unfold bind. destruct (c w) as [[e1|a] w1]; intros H; [left; by injection H as -> -> | right; eauto].
Qed.

Lemma bind_step (c : M A) (k : A -> M B) w a w1 :
  c w = (inr a, w1) -> bind c k w = k a w1.
Proof. unfold bind. by intros ->. Qed.

Lemma bind_fail (c : M A) (k : A -> M B) w e w1 :
  c w = (inl e, w1) -> bind c k w = (inl e, w1).
Proof. unfold bind. by intros ->. Qed.

End MonadFacts.

Lemma print_eq line w : print line w = (inr tt, log_stdout line w).
Proof. reflexivity. Qed.

Section CallFacts.

Variable env : Env.

Lemma call_llm_api_eq prompt system_message model api_key endpoint w :
  call_llm_api env prompt system_message model api_key endpoint w =
  match effective_key env api_key with
  | None => (inl api_key_missing, w)
  | Some key =>
      let q := request_of env prompt system_message model endpoint key in
      let w1 :=
        log_request q
          (log_stdout (lit "  Calling LLM API with model: " ++
                       req_model q ++ lit "...") w) in
      match server env (length (requests w)) q with
      | Raises cls msg =>
          (inl (Exception cls msg),
           log_stdout (lit "Error calling LLM API: " ++ msg) w1)
      | Malformed elapsed cls msg =>
          (inl (Exception cls msg),
           log_stdout (lit "Error calling LLM API: " ++ msg)
             (log_stdout (lit "  API call completed in " ++ elapsed ++
                          lit " seconds") w1))
      | Replies elapsed content =>
          (inr content,
           log_stdout (lit "  API call completed in " ++ elapsed ++
                       lit " seconds") w1)
      end
  end.
Proof.
  unfold call_llm_api, effective_key.
  destruct api_key as [[|c s]|];
    destruct (environ env !! lit "LLM_API_KEY") as [[|c' s']|];
    try reflexivity.
  all: unfold bind, try_except, post, print, raise, ret, request_of.
  all: cbn [falsy or_else requests log_stdout log_request fst snd].
  all: match goal with |- context [server env ?n ?q] =>
         destruct (server env n q) end; reflexivity.
Qed.

End CallFacts.

(** ** Facts about the steps *)

(** Unfold one step down to the primitives and split on every test it
    makes: the prompt file, the API key, the answer of the service and
    whether the output can be written. *)
Ltac unfold_step H :=
  unfold run_stage, step1, step2, step3, step4, generate_html,
    generate_javascript, generate_css, generate_tests,
    generate_config_file, save_file, write_file, read_prompt_file,
    bind, print, ret in H.

Ltac split_step :=
  repeat first
    [ rewrite call_llm_api_eq in *
    | progress (cbv zeta in *;
                cbn [files requests stderr stdout log_stdout
                     log_request put_file] in * )
    | case_match; simplify_eq ].

Section StepFacts.

Variable env : Env.

Implicit Types (k : stage) (w : World) (artifact : stage -> str).

(** A step that returns: the prompt was there, the request went out and
    was answered, and the unwrapped answer was saved. *)
Lemma run_stage_inr k artifact w a w' :
  run_stage env k artifact w = (inr a, w') ->
  exists raw key elapsed reply,
    files w !! stage_prompt_path k = Some raw /\
    effective_key env None = Some key /\
    server env (length (requests w))
           (stage_request env k artifact (strip raw) key)
      = Replies elapsed reply /\
    a = extract_code reply /\
    files w' = <[stage_output_path k := a]> (files w) /\
    requests w' =
      requests w ++ [stage_request env k artifact (strip raw) key] /\
    stderr w' = stderr w.
Proof.
  intros H. destruct k; unfold_step H; split_step.
  all: eexists _, _, _, _; split_and!; try done; eassumption.
Qed.

(** A step that raises: the exception is an [Exception], no file has
    changed, nothing went to standard error, and at most the one request
    of the step was posted. *)
Lemma run_stage_inl k artifact w e w' :
  run_stage env k artifact w = (inl e, w') ->
  (exists cls msg, e = Exception cls msg) /\
  files w' = files w /\
  stderr w' = stderr w /\
  exists qs, requests w' = requests w ++ qs /\ (length qs <= 1)%nat.
Proof.
  intros H. destruct k; unfold_step H; split_step.
  all: split_and!; try done; try (by eexists _, _).
  all: first [ exists []; rewrite app_nil_r; split; [done | simpl; lia]
             | eexists [_]; split; [done | simpl; lia] ].
Qed.

(** Whatever a step does, the requests it posts are the request of its
    stage, built from the prompt file it read. *)
Lemma run_stage_requests k artifact w r w' :
  run_stage env k artifact w = (r, w') ->
  requests w' = requests w \/
  exists raw key,
    files w !! stage_prompt_path k = Some raw /\
    effective_key env None = Some key /\
    requests w' =
      requests w ++ [stage_request env k artifact (strip raw) key].
Proof.
  intros H. destruct k; unfold_step H; split_step.
  all: first [ by left | right; by eexists _, _ ].
Qed.

(** Without its prompt file a step raises [FileNotFoundError] before it
    posts anything. *)
Lemma run_stage_no_prompt k artifact w :
  files w !! stage_prompt_path k = None ->
  exists w',
    run_stage env k artifact w
      = (inl (file_not_found (stage_prompt_path k)), w') /\
    files w' = files w /\ requests w' = requests w /\
    stderr w' = stderr w.
Proof.
  intros H. destruct k; simpl in H.
  all: eexists; split;
    [ unfold run_stage, step1, step2, step3, step4, bind, print,
        read_prompt_file;
      cbn [files log_stdout]; rewrite H; reflexivity
    | done ].
Qed.

(** *** One configuration file *)

Lemma effective_key_environ :
  effective_key env (environ env !! lit "LLM_API_KEY")
  = effective_key env None.
Proof.
  unfold effective_key.
  by destruct (environ env !! lit "LLM_API_KEY") as [[|c s]|].
Qed.

Lemma generate_config_file_inr c w w' :
  generate_config_file env c w = (inr tt, w') ->
  exists key elapsed reply,
    effective_key env None = Some key /\
    server env (length (requests w)) (config_request env c key)
      = Replies elapsed reply /\
    files w' = <[cfg_name c := reply]> (files w) /\
    requests w' = requests w ++ [config_request env c key] /\
    stderr w' = stderr w.
Proof.
  intros H. unfold_step H. split_step.
  eexists _, _, _; split_and!; try done.
  by rewrite <- effective_key_environ.
Qed.

Lemma generate_config_file_inl c w e w' :
  generate_config_file env c w = (inl e, w') ->
  (exists cls msg, e = Exception cls msg) /\
  files w' = files w /\
  stderr w' = stderr w /\
  exists qs, requests w' = requests w ++ qs /\ (length qs <= 1)%nat.
Proof.
  intros H. unfold_step H. split_step.
  all: split_and!; try done; try (by eexists _, _).
  all: first [ exists []; rewrite app_nil_r; split; [done | simpl; lia]
             | eexists [_]; split; [done | simpl; lia] ].
Qed.

(** *** The loop over the configuration files *)

(** The loop returns: every file of the list was answered and written, in
    order. *)
Lemma config_loop_inr (cs : list Config) w w' :
  for_each cs (generate_config_file env) w = (inr tt, w') ->
  (forall p, p ∉ cfg_name <$> cs -> files w' !! p = files w !! p) /\
  (exists qs, requests w' = requests w ++ qs /\ length qs = length cs) /\
  stderr w' = stderr w.
Proof.
  revert w. induction cs as [|c cs IH]; intros w H; simpl in H.
  - injection H as <-. split_and!; [done | | done].
    exists []. by rewrite app_nil_r.
  - apply bind_inr in H as ([] & w1 & Hc & H).
    apply generate_config_file_inr in Hc
      as (key & el & reply & _ & _ & Hf & Hq & He).
    apply IH in H as (Hf' & (qs & Hq' & Hl) & He').
    split_and!.
    + intros p Hp. rewrite fmap_cons in Hp.
      apply not_elem_of_cons in Hp as [Hne Hp].
      rewrite Hf' by done. rewrite Hf. by rewrite lookup_insert_ne.
    + eexists (_ :: qs). rewrite Hq', Hq, <- app_assoc. simpl.
      split; [done | by rewrite Hl].
    + congruence.
Qed.

(** The loop raises: it is at one file of the list, the files before it
    were written, and neither that file nor a later one was touched. *)
Lemma config_loop_inl (cs : list Config) w e w' :
  for_each cs (generate_config_file env) w = (inl e, w') ->
  exists done c rest w1,
    cs = done ++ c :: rest /\
    for_each done (generate_config_file env) w = (inr tt, w1) /\
    generate_config_file env c w1 = (inl e, w').
Proof.
  revert w. induction cs as [|c cs IH]; intros w H; simpl in H; [done|].
  apply bind_inl in H as [H | ([] & w1 & Hc & H)].
  - by exists [], c, cs, w.
  - apply IH in H as (done & c' & rest & w2 & -> & Hd & Hc').
    exists (c :: done), c', rest, w2. split_and!; [done | | done].
    simpl. by rewrite (bind_step _ _ _ _ _ Hc).
Qed.

End StepFacts.

(** ** The paths of a run are pairwise distinct *)

Lemma stage_output_path_inj j k :
  stage_output_path j = stage_output_path k -> j = k.
Proof.
  destruct j, k; intros H; try reflexivity; vm_compute in H; discriminate H.
Qed.

Lemma prompt_not_output j k : stage_prompt_path j <> stage_output_path k.
Proof. destruct j, k; intros H; vm_compute in H; discriminate H. Qed.

Lemma config_not_output c k :
  c ∈ config_files -> cfg_name c <> stage_output_path k.
Proof.
  intros Hc H. unfold config_files in Hc.
  repeat (apply elem_of_cons in Hc as [-> | Hc];
          [destruct k; vm_compute in H; discriminate H|]).
  by apply elem_of_nil in Hc.
Qed.


(** ** Facts about [main] *)

Section MainFacts.

Variable env : Env.

Implicit Types (k j : stage) (w : World) (e : exn).

Lemma after_banner_files w : files (after_banner env w) = files w.
Proof. reflexivity. Qed.

Lemma after_banner_requests w : requests (after_banner env w) = requests w.
Proof. reflexivity. Qed.

Lemma after_banner_stderr w : stderr (after_banner env w) = stderr w.
Proof. reflexivity. Qed.

(** [main_body] is the banner, the four steps, the configuration files and
    the summary. *)
Lemma main_body_eq w :
  main_body env w =
  bind (primary env)
       (fun _ => generate_config_files env;; print_summary)
       (after_banner env w).
Proof.
  unfold main_body.
  rewrite (bind_step _ _ w tt (after_banner env w)) by reflexivity.
  unfold primary, bind.
  destruct (step1 env (after_banner env w)) as [[e|h] w1]; [done|].
  destruct (step2 env h w1) as [[e|j] w2]; [done|].
  destruct (step3 env h j w2) as [[e|c] w3]; [done|].
  destruct (step4 env h j c w3) as [[e|t] w4]; done.
Qed.

(** *** Failing stages *)

Lemma primary_inl w e w' :
  primary env w = (inl e, w') -> exists k, stage_fails env k w e w'.
Proof.
  unfold primary. intros H.
  apply bind_inl in H as [H | (h & w1 & H1 & H)];
    [exists HTML; by constructor|].
  apply bind_inl in H as [H | (j & w2 & H2 & H)];
    [exists Script; by econstructor|].
  apply bind_inl in H as [H | (c & w3 & H3 & H)];
    [exists Style; by econstructor|].
  apply bind_inl in H as [H | (t & w4 & H4 & H)];
    [exists Tests; by econstructor|].
  discriminate H.
Qed.

Lemma stage_fails_primary k w e w' :
  stage_fails env k w e w' -> primary env w = (inl e, w').
Proof.
  unfold primary.
  destruct 1 as [w e w' H1 | w h w1 e w' H1 H2
                 | w h w1 j w2 e w' H1 H2 H3
                 | w h w1 j w2 c w3 e w' H1 H2 H3 H4].
  - by rewrite (bind_fail _ _ _ _ _ H1).
  - rewrite (bind_step _ _ _ _ _ H1). by rewrite (bind_fail _ _ _ _ _ H2).
  - rewrite (bind_step _ _ _ _ _ H1), (bind_step _ _ _ _ _ H2).
    by rewrite (bind_fail _ _ _ _ _ H3).
  - rewrite (bind_step _ _ _ _ _ H1), (bind_step _ _ _ _ _ H2),
      (bind_step _ _ _ _ _ H3).
    by rewrite (bind_fail _ _ _ _ _ H4).
Qed.

(** What a failing stage leaves behind: only the outputs of the stages
    before it have changed, at most one request per stage up to it was
    posted, and standard error is as it was. *)
Lemma stage_fails_world k w e w' :
  stage_fails env k w e w' ->
  (exists cls msg, e = Exception cls msg) /\
  (forall p,
      (forall j, (stage_index j < stage_index k)%nat ->
                 p <> stage_output_path j) ->
      files w' !! p = files w !! p) /\
  (exists qs, requests w' = requests w ++ qs /\
              (length qs <= stage_index k + 1)%nat) /\
  stderr w' = stderr w.
Proof.
  destruct 1 as [w e w' H1 | w h w1 e w' H1 H2
                 | w h w1 j w2 e w' H1 H2 H3
                 | w h w1 j w2 c w3 e w' H1 H2 H3 H4].
  all: repeat match goal with
       | H : _ = (inr _, _) |- _ =>
           first
             [ apply (run_stage_inr env HTML (artifacts_of h [] [] [])) in H
             | apply (run_stage_inr env Script (artifacts_of h [] [] [])) in H
             | apply (run_stage_inr env Style (artifacts_of h j [] [])) in H ];
           destruct H as (? & ? & ? & ? & _ & _ & _ & _ & ? & ? & ?)
       | H : _ = (inl _, _) |- _ =>
           first
             [ apply (run_stage_inl env HTML (artifacts_of [] [] [] [])) in H
             | apply (run_stage_inl env Script (artifacts_of h [] [] [])) in H
             | apply (run_stage_inl env Style (artifacts_of h j [] [])) in H
             | apply (run_stage_inl env Tests (artifacts_of h j c [])) in H ];
           destruct H as (? & ? & ? & qs & ? & ?)
       end.
  all: split_and!; [done | | | congruence].
  all: try (intros p Hp;
            repeat match goal with
                   | H : files _ = _ |- _ => rewrite H; clear H
                   end;
            rewrite ?lookup_insert_ne; [done | ..];
            first [ apply not_eq_sym, (Hp HTML); simpl; lia
                  | apply not_eq_sym, (Hp Script); simpl; lia
                  | apply not_eq_sym, (Hp Style); simpl; lia ]).
  all: eexists;
    split;
    [ repeat match goal with
             | H : requests _ = _ |- _ => rewrite H; clear H
             end;
      rewrite <- ?app_assoc; reflexivity
    | rewrite ?length_app; simpl; lia ].
Qed.

(** *** The four steps in a row *)

(** The four steps return: every prompt file was there at the start, the
    request of every stage was built from its trimmed prompt and the
    artifacts made before it, every artifact is the unwrapped answer to
    its request, and the four outputs were saved. *)
Lemma primary_inr w (h j c t : str) w' :
  primary env w = (inr (h, j, c, t), w') ->
  exists (raw elapsed reply : stage -> str) key,
    let artifact := artifacts_of h j c t in
    let request k := stage_request env k artifact (strip (raw k)) key in
    effective_key env None = Some key /\
    (forall k,
        files w !! stage_prompt_path k = Some (raw k) /\
        server env (length (requests w) + stage_index k) (request k)
          = Replies (elapsed k) (reply k) /\
        artifact k = extract_code (reply k)) /\
    files w' =
      <[test_path := t]> (<[css_path := c]> (<[js_path := j]>
        (<[html_path := h]> (files w)))) /\
    requests w' = requests w ++ (request <$> [HTML; Script; Style; Tests]) /\
    stderr w' = stderr w.
Proof.
  unfold primary. intros H.
  apply bind_inr in H as (h' & w1 & H1 & H).
  apply bind_inr in H as (j' & w2 & H2 & H).
  apply bind_inr in H as (c' & w3 & H3 & H).
  apply bind_inr in H as (t' & w4 & H4 & H).
  injection H as -> -> -> -> ->.
  apply (run_stage_inr env HTML (artifacts_of h j c t)) in H1
    as (r1 & key & e1 & a1 & Hp1 & Hk & Hs1 & Ha1 & Hf1 & Hq1 & He1).
  apply (run_stage_inr env Script (artifacts_of h j c t)) in H2
    as (r2 & key2 & e2 & a2 & Hp2 & Hk2 & Hs2 & Ha2 & Hf2 & Hq2 & He2).
  apply (run_stage_inr env Style (artifacts_of h j c t)) in H3
    as (r3 & key3 & e3 & a3 & Hp3 & Hk3 & Hs3 & Ha3 & Hf3 & Hq3 & He3).
  apply (run_stage_inr env Tests (artifacts_of h j c t)) in H4
    as (r4 & key4 & e4 & a4 & Hp4 & Hk4 & Hs4 & Ha4 & Hf4 & Hq4 & He4).
  assert (key2 = key) as -> by congruence.
  assert (key3 = key) as -> by congruence.
  assert (key4 = key) as -> by congruence.
  exists (artifacts_of r1 r2 r3 r4), (artifacts_of e1 e2 e3 e4),
         (artifacts_of a1 a2 a3 a4), key.
  split_and!.
  - done.
  - rewrite Hf3, Hf2, Hf1 in Hp4. rewrite Hf2, Hf1 in Hp3.
    rewrite Hf1 in Hp2.
    rewrite !lookup_insert_ne in Hp4
      by apply not_eq_sym, (prompt_not_output Tests).
    rewrite !lookup_insert_ne in Hp3
      by apply not_eq_sym, (prompt_not_output Style).
    rewrite !lookup_insert_ne in Hp2
      by apply not_eq_sym, (prompt_not_output Script).
    rewrite Hq3, Hq2, Hq1 in Hs4. rewrite Hq2, Hq1 in Hs3.
    rewrite Hq1 in Hs2. rewrite !length_app in *. simpl length in *.
    intros []; simpl; split_and!; try done.
    + by rewrite Nat.add_0_r.
    + by replace (length (requests w) + 1 + 1)%nat
        with (length (requests w) + 2)%nat in Hs3 by lia.
    + by replace (length (requests w) + 1 + 1 + 1)%nat
        with (length (requests w) + 3)%nat in Hs4 by lia.
  - by rewrite Hf4, Hf3, Hf2, Hf1.
  - rewrite Hq4, Hq3, Hq2, Hq1. by rewrite <- !app_assoc.
  - congruence.
Qed.

(** *** What [run] returns *)

Lemma generate_config_files_inl w e w' :
  generate_config_files env w = (inl e, w') ->
  exists cls msg, e = Exception cls msg.
Proof.
  intros (done & c & rest & w1 & _ & _ & H)%config_loop_inl.
  by apply generate_config_file_inl in H as [? _].
Qed.

Lemma main_body_inl w e w' :
  main_body env w = (inl e, w') -> exists cls msg, e = Exception cls msg.
Proof.
  rewrite main_body_eq. intros H.
  apply bind_inl in H as [H | (a & w1 & _ & H)].
  - apply primary_inl in H as [k H].
    by apply stage_fails_world in H as [? _].
  - apply bind_inl in H as [H | ([] & w2 & _ & H)].
    + by apply generate_config_files_inl in H.
    + discriminate H.
Qed.

(** A body that raises ends the run with status 1, after one more line on
    standard output. *)
Lemma run_body_raises args w e w' :
  main_body env w = (inl e, w') ->
  run env args w = (1, log_stdout (error_line e) w').
Proof.
  intros H. destruct (main_body_inl _ _ _ H) as (cls & msg & ->).
  unfold run, main, try_except. by rewrite H.
Qed.

Lemma run_body_returns args w w' :
  main_body env w = (inr tt, w') -> run env args w = (0, w').
Proof. intros H. unfold run, main, try_except. by rewrite H. Qed.

(** Status 0 is the status of a body that returned. *)
Lemma run_zero args w w' :
  run env args w = (0, w') -> main_body env w = (inr tt, w').
Proof.
  destruct (main_body env w) as [[e|[]] w1] eqn:H.
  - rewrite (run_body_raises args _ _ _ H). intros E. discriminate E.
  - rewrite (run_body_returns args _ _ H). by intros [= <-].
Qed.

Lemma run_stage_failure args k w e w' :
  stage_fails env k (after_banner env w) e w' ->
  run env args w = (1, log_stdout (error_line e) w').
Proof.
  intros H%stage_fails_primary. apply run_body_raises.
  rewrite main_body_eq. by rewrite (bind_fail _ _ _ _ _ H).
Qed.

End MainFacts.

(** ** The context chain *)

(** The [full_prompt] each generator builds is the specification's
    message: preamble, the artifacts made before the stage, each in its
    labelled block and in creation order, closing line, prompt. *)
Lemma stage_user_message k artifact prompt :
  stage_user k artifact prompt
  = stage_message k (context_before k artifact) prompt.
Proof.
  destruct k.
  all: unfold stage_user, stage_message, context_before, render_context,
         html_full_prompt, js_context_text, css_context_text,
         tests_context_text, labelled_block, stage_preamble, stage_closing,
         stage_index, artifact_label, artifact_lang, fence.
  all: cbn [take fmap list_fmap concat fst snd].
  all: rewrite <- ?app_assoc, ?app_nil_r, ?app_nil_l; reflexivity.
Qed.

Lemma context_before_ext k (a b : stage -> str) :
  (forall j, a j = b j) -> context_before k a = context_before k b.
Proof. intros H. unfold context_before. by rewrite !H. Qed.

Lemma output_lookup (h j c t : str) (m : gmap str str) k :
  <[test_path := t]> (<[css_path := c]> (<[js_path := j]>
    (<[html_path := h]> m))) !! stage_output_path k
  = Some (artifacts_of h j c t k).
Proof.
  assert (Hne : forall i i', i <> i' ->
                 stage_output_path i <> stage_output_path i')
    by (intros i i' Hi Heq; by apply stage_output_path_inj in Heq).
  destruct k; cbn [stage_output_path artifacts_of].
  - rewrite (lookup_insert_ne _ test_path) by by apply (Hne Tests HTML).
    rewrite (lookup_insert_ne _ css_path) by by apply (Hne Style HTML).
    rewrite (lookup_insert_ne _ js_path) by by apply (Hne Script HTML).
    apply lookup_insert_eq.
  - rewrite (lookup_insert_ne _ test_path) by by apply (Hne Tests Script).
    rewrite (lookup_insert_ne _ css_path) by by apply (Hne Style Script).
    apply lookup_insert_eq.
  - rewrite (lookup_insert_ne _ test_path) by by apply (Hne Tests Style).
    apply lookup_insert_eq.
  - apply lookup_insert_eq.
Qed.

(** C2: in a run that ends with status 0 the four stages post their
    requests in the order HTML, Script, Style, Tests; the user message of
    stage [k] is built from the trimmed prompt of [k] and exactly the
    artifacts of the stages before [k], in creation order, each as
    [extract_code] returned it from the answer to its own request; and at
    the end every artifact is on disk as it was passed on. *)
Theorem context_chain env args w0 w :
  run env args w0 = (0, w) ->
  exists (prompt reply : stage -> str) (request : stage -> Request)
         (later : list Request),
    let artifact k := extract_code (reply k) in
    requests w
      = requests w0 ++ (request <$> [HTML; Script; Style; Tests]) ++ later /\
    forall k,
      (exists raw, files w0 !! stage_prompt_path k = Some raw /\
                   prompt k = strip raw) /\
      req_user (request k)
        = stage_message k (context_before k artifact) (prompt k) /\
      (exists elapsed,
          server env (length (requests w0) + stage_index k) (request k)
          = Replies elapsed (reply k)) /\
      files w !! stage_output_path k = Some (artifact k).
Proof.
  intros H%run_zero. rewrite main_body_eq in H.
  apply bind_inr in H as ([[[h j] c] t] & w4 & Hp & H).
  apply bind_inr in H as ([] & w5 & Hc & Hs).
  apply primary_inr in Hp
    as (raw & elapsed & reply & key & Hk & Hst & Hf4 & Hq4 & He4).
  apply config_loop_inr in Hc as (Hf5 & (qs & Hq5 & _) & _).
  injection Hs as <-.
  exists (fun k => strip (raw k)), reply,
         (fun k => stage_request env k (artifacts_of h j c t)
                     (strip (raw k)) key), qs.
  split.
  - cbn [requests log_stdout]. rewrite Hq5, Hq4.
    by rewrite <- app_assoc.
  - intros k. destruct (Hst k) as (Hraw & Hsrv & Hart). split_and!.
    + by exists (raw k).
    + cbn [req_user stage_request request_of].
      rewrite stage_user_message. f_equal.
      apply context_before_ext. intros i. by destruct (Hst i) as (_ & _ & ->).
    + by exists (elapsed k).
    + cbn [files log_stdout]. rewrite <- Hart.
      rewrite Hf5.
      * rewrite Hf4. apply output_lookup.
      * intros (c' & Heq & Hin)%list_elem_of_fmap.
        symmetry in Heq. by apply config_not_output in Heq.
Qed.

Lemma context_chain_witness :
  exists (prompt reply : stage -> str) (request : stage -> Request)
         (later : list Request),
    let artifact k := extract_code (reply k) in
    requests (run (sample_env None) no_args sample_world).2
      = requests sample_world
        ++ (request <$> [HTML; Script; Style; Tests]) ++ later /\
    forall k,
      (exists raw, files sample_world !! stage_prompt_path k = Some raw /\
                   prompt k = strip raw) /\
      req_user (request k)
        = stage_message k (context_before k artifact) (prompt k) /\
      (exists elapsed,
          server (sample_env None)
                 (length (requests sample_world) + stage_index k) (request k)
          = Replies elapsed (reply k)) /\
      files (run (sample_env None) no_args sample_world).2
        !! stage_output_path k = Some (artifact k).
Proof.
  apply (context_chain (sample_env None) no_args sample_world).
  vm_compute. reflexivity.
Defined.

(** ** Failures *)




(** *** A configuration file that fails *)

Section ConfigFailure.

Variable env : Env.



End ConfigFailure.




(** ** PromptStore *)

Section MissingPrompt.

Variable env : Env.

(** A run that lacks the prompt file of stage [k] fails at [k] or
    before, with no request posted for [k]. *)
Lemma missing_prompt_fails k w :
  files w !! stage_prompt_path k = None ->
  exists j e w',
    stage_fails env j w e w' /\
    (stage_index j <= stage_index k)%nat /\
    (length (requests w') <= length (requests w) + stage_index k)%nat.
Proof.
  intros Hk.
  revert w Hk.
  assert (Hhere : forall w0 w (art : stage -> str) n,
             files w !! stage_prompt_path k = None ->
             length (requests w) = (length (requests w0) + n)%nat ->
             (n <= stage_index k)%nat ->
             exists w',
               run_stage env k art w
                 = (inl (file_not_found (stage_prompt_path k)), w') /\
               (length (requests w')
                <= length (requests w0) + stage_index k)%nat).
  { intros w0 w art n Hk Hq Hn.
    destruct (run_stage_no_prompt env k art w Hk) as (w' & E & _ & Hq' & _).
    exists w'. split; [done|]. rewrite Hq', Hq. lia. }
  intros w Hk.
  destruct (step1 env w) as [[e1|h] w1] eqn:H1.
  { exists HTML, e1, w1. split_and!; [by apply fails_html | simpl; lia |].
    destruct k.
    - destruct (Hhere w w (artifacts_of [] [] [] []) 0%nat Hk) as (w' & E & Hl);
        [lia | simpl; lia |].
      cbn [run_stage] in E. rewrite H1 in E. by injection E as _ <-.
    - apply (run_stage_inl env HTML (artifacts_of [] [] [] [])) in H1
        as (_ & _ & _ & (qs & -> & Hl)). rewrite length_app. simpl. lia.
    - apply (run_stage_inl env HTML (artifacts_of [] [] [] [])) in H1
        as (_ & _ & _ & (qs & -> & Hl)). rewrite length_app. simpl. lia.
    - apply (run_stage_inl env HTML (artifacts_of [] [] [] [])) in H1
        as (_ & _ & _ & (qs & -> & Hl)). rewrite length_app. simpl. lia. }
  pose proof H1 as H1'.
  apply (run_stage_inr env HTML (artifacts_of h [] [] [])) in H1'
    as (r1 & k1 & el1 & rp1 & Hp1 & _ & _ & _ & Hf1 & Hq1 & _).
  assert (Hk1 : k <> HTML -> files w1 !! stage_prompt_path k = None).
  { intros _. rewrite Hf1, lookup_insert_ne; [done|].
    apply not_eq_sym, prompt_not_output. }
  assert (Hl1 : length (requests w1) = (length (requests w) + 1)%nat)
    by (rewrite Hq1, length_app; simpl; lia).
  destruct (step2 env h w1) as [[e2|j] w2] eqn:H2.
  { destruct k.
    - cbn [stage_prompt_path] in *. congruence.
    - exists Script, e2, w2. split_and!; [by econstructor | lia |].
      destruct (Hhere w w1 (artifacts_of h [] [] []) 1%nat) as (w' & E & Hl);
        [by apply Hk1 | done | simpl; lia |].
      cbn [run_stage artifacts_of] in E. rewrite H2 in E.
      by injection E as _ <-.
    - exists Script, e2, w2. split_and!; [by econstructor | simpl; lia |].
      apply (run_stage_inl env Script (artifacts_of h [] [] [])) in H2
        as (_ & _ & _ & (qs & -> & Hl)). rewrite length_app. simpl. lia.
    - exists Script, e2, w2. split_and!; [by econstructor | simpl; lia |].
      apply (run_stage_inl env Script (artifacts_of h [] [] [])) in H2
        as (_ & _ & _ & (qs & -> & Hl)). rewrite length_app. simpl. lia. }
  pose proof H2 as H2'.
  apply (run_stage_inr env Script (artifacts_of h j [] [])) in H2'
    as (r2 & k2 & el2 & rp2 & Hp2 & _ & _ & _ & Hf2 & Hq2 & _).
  assert (Hk2 : k <> HTML -> k <> Script ->
                files w2 !! stage_prompt_path k = None).
  { intros ? ?. rewrite Hf2, lookup_insert_ne; [by apply Hk1|].
    apply not_eq_sym, prompt_not_output. }
  assert (Hl2 : length (requests w2) = (length (requests w) + 2)%nat)
    by (rewrite Hq2, length_app; simpl; lia).
  destruct (step3 env h j w2) as [[e3|c] w3] eqn:H3.
  { destruct k.
    - cbn [stage_prompt_path] in *. congruence.
    - cbn [stage_prompt_path] in *. rewrite Hk1 in Hp2; done.
    - exists Style, e3, w3. split_and!; [by econstructor | lia |].
      destruct (Hhere w w2 (artifacts_of h j [] []) 2%nat) as (w' & E & Hl);
        [by apply Hk2 | done | simpl; lia |].
      cbn [run_stage artifacts_of] in E. rewrite H3 in E.
      by injection E as _ <-.
    - exists Style, e3, w3. split_and!; [by econstructor | simpl; lia |].
      apply (run_stage_inl env Style (artifacts_of h j [] [])) in H3
        as (_ & _ & _ & (qs & -> & Hl)). rewrite length_app. simpl. lia. }
  pose proof H3 as H3'.
  apply (run_stage_inr env Style (artifacts_of h j c [])) in H3'
    as (r3 & k3 & el3 & rp3 & Hp3 & _ & _ & _ & Hf3 & Hq3 & _).
  assert (Hk3 : k = Tests -> files w3 !! stage_prompt_path k = None).
  { intros ->. rewrite Hf3, lookup_insert_ne; [by apply Hk2|].
    apply not_eq_sym, prompt_not_output. }
  assert (Hl3 : length (requests w3) = (length (requests w) + 3)%nat)
    by (rewrite Hq3, length_app; simpl; lia).
  destruct k.
  - cbn [stage_prompt_path] in *. congruence.
  - cbn [stage_prompt_path] in *. rewrite Hk1 in Hp2; done.
  - cbn [stage_prompt_path] in *. rewrite Hk2 in Hp3; done.
  - destruct (Hhere w w3 (artifacts_of h j c []) 3%nat) as (w' & E & Hl);
      [by apply Hk3 | done | simpl; lia |].
    cbn [run_stage artifacts_of] in E.
    exists Tests, (file_not_found (stage_prompt_path Tests)), w'.
    split_and!; [by econstructor | lia | done].
Qed.

End MissingPrompt.

(** C9: [read_prompt_file] returns the trimmed content of a file that
    exists and raises [FileNotFoundError] on one that does not; and a run
    that lacks the prompt file of a stage ends with status 1, with no
    request posted for that stage and no output written for it or for a
    later stage. *)
Theorem prompt_store :
  (forall w path content,
      files w !! path = Some content ->
      read_prompt_file path w = (inr (strip content), w)) /\
  (forall w path,
      files w !! path = None ->
      read_prompt_file path w = (inl (file_not_found path), w)) /\
  (forall env args k w0,
      files w0 !! stage_prompt_path k = None ->
      exists wf,
        run env args w0 = (1, wf) /\
        (length (requests wf) <= length (requests w0) + stage_index k)%nat /\
        forall j, (stage_index k <= stage_index j)%nat ->
                  files wf !! stage_output_path j
                  = files w0 !! stage_output_path j).
Proof.
  split_and!.
  - intros w path content H. unfold read_prompt_file. by rewrite H.
  - intros w path H. unfold read_prompt_file. by rewrite H.
  - intros env args k w0 Hk.
    destruct (missing_prompt_fails env k (after_banner env w0) Hk)
      as (j & e & w' & Hfail & Hj & Hq).
    exists (log_stdout (error_line e) w'). split_and!.
    + by apply (run_stage_failure env args j).
    + exact Hq.
    + intros i Hi. cbn [files log_stdout].
      apply stage_fails_world in Hfail as (_ & Hf & _ & _).
      rewrite Hf; [done|].
      intros i' Hi' Heq. apply stage_output_path_inj in Heq. subst. lia.
Qed.

Lemma prompt_store_witness :
  read_prompt_file ui_prompt_path sample_world
    = (inr (lit "A calculator page."), sample_world) /\
  read_prompt_file (lit "prompts/missing.prompt") sample_world
    = (inl (file_not_found (lit "prompts/missing.prompt")), sample_world) /\
  exists wf,
    run (sample_env None) no_args
        (mkWorld (delete style_prompt_path sample_files) [] [] [])
      = (1, wf) /\
    (length (requests wf) <= 2)%nat /\
    files wf !! css_path = None.
Proof.
  destruct prompt_store as (Hsome & Hnone & Hfatal). split_and!.
  - rewrite (Hsome sample_world ui_prompt_path (lit "A calculator page.
")); [|vm_compute; reflexivity].
    vm_compute. reflexivity.
  - apply Hnone. vm_compute. reflexivity.
  - destruct (Hfatal (sample_env None) no_args Style
                (mkWorld (delete style_prompt_path sample_files) [] [] []))
      as (wf & Hrun & Hq & Hf).
    + vm_compute. reflexivity.
    + exists wf. split_and!; [done | done |].
      etrans; [apply (Hf Style); lia | vm_compute; reflexivity].
Defined.

(** ** The messages of a request *)

(** C8, as the code has it: every request a step posts carries the
    [system_prompt] of its generator as system message, except at the HTML
    stage, whose request carries the default system message of
    [call_llm_api] and has the instruction at the head of its user
    message. *)
Theorem stage_system_messages env k artifact w r w' q :
  run_stage env k artifact w = (r, w') ->
  q ∈ drop (length (requests w)) (requests w') ->
  match k with
  | HTML =>
      req_system q = default_system_message /\
      exists prompt,
        req_user q = stage_instruction HTML ++ NL ++ NL ++ prompt
  | _ => req_system q = stage_instruction k
  end.
Proof.
  intros H Hq.
  apply run_stage_requests in H as [E | (raw & key & _ & _ & E)];
    rewrite E in Hq.
  - rewrite drop_ge in Hq by lia. by apply elem_of_nil in Hq.
  - rewrite drop_app_length in Hq. apply list_elem_of_singleton in Hq as ->.
    destruct k; cbn; try reflexivity. split; [reflexivity|]. by eexists.
Qed.

Lemma stage_system_messages_witness :
  req_system
    (stage_request (sample_env None) Script
       (artifacts_of (lit "<p>calc</p>") [] [] [])
       (lit "Add and subtract.") (lit "sk-env"))
  = js_system_prompt.
Proof.
  apply (stage_system_messages (sample_env None) Script
           (artifacts_of (lit "<p>calc</p>") [] [] []) sample_world
           (step2 (sample_env None) (lit "<p>calc</p>") sample_world).1
           (step2 (sample_env None) (lit "<p>calc</p>") sample_world).2).
  - cbn [run_stage artifacts_of].
    by destruct (step2 (sample_env None) (lit "<p>calc</p>") sample_world).
  - vm_compute. constructor.
Defined.

(** C8 as stated fails at the HTML stage: the system message of its
    request is the generic default, which is not the instruction of the
    stage and says nothing of output without prose or markdown. *)
Lemma html_system_message_is_default :
  req_system <$> requests (step1 (sample_env None) sample_world).2
    = [lit "You are a code generator for a calculator application."] /\
  lit "You are a code generator for a calculator application."
    <> stage_instruction HTML /\
  contains (lit "only") default_system_message = false /\
  contains (lit "ONLY") default_system_message = false /\
  contains (lit "markdown") default_system_message = false.
Proof. vm_compute. split_and!; done. Qed.

(** ** The command-line overrides *)

(** C4 does not hold of the code: [main] never reads [args], so a run
    with [--model], [--api-key] and [--endpoint] posts the same requests as
    a run without them, with the model, key and endpoint of the
    environment. *)
Theorem cli_overrides_ignored :
  (forall env args w, run env args w = run env no_args w) /\
  (run (sample_env None) override_args sample_world).1 = 0 /\
  req_model <$> requests (run (sample_env None) override_args sample_world).2
    = replicate 7 (lit "gpt-4-turbo") /\
  req_authorization
    <$> requests (run (sample_env None) override_args sample_world).2
    = replicate 7 (lit "Bearer sk-env") /\
  req_endpoint
    <$> requests (run (sample_env None) override_args sample_world).2
    = replicate 7 (lit "https://api.openai.com/v1/chat/completions").
Proof. split; [reflexivity | vm_compute; done]. Qed.

(** ** More about [extract_code] *)

Section Substrings.

Implicit Types (s t u : str).

Lemma substring_refl s : substring s s.
Proof. exists [], []. by rewrite app_nil_r. Qed.

Lemma substring_trans s t u : substring s t -> substring t u -> substring s u.
Proof.
  intros (a & b & ->) (c & d & ->).
  exists (c ++ a), (b ++ d). by rewrite <- !app_assoc.
Qed.

Lemma strip_substring s : substring (strip s) s.
Proof.
  destruct (strip_decomp s) as (a & b & H & _). by exists a, b.
Qed.

Lemma slice_substring s a b : substring (slice s a b) s.
Proof.
  unfold slice.
  set (m := Z.to_nat (slice_bound (Z.of_nat (length s)) a)).
  set (n := Z.to_nat _).
  exists (take m s), (drop n (drop m s)).
  by rewrite take_drop, take_drop.
Qed.

End Substrings.

(** X1: whatever the reply, the result is a contiguous piece of it:
    [extract_code] only cuts, it never adds or rearranges text. *)
Theorem extract_code_is_substring (x : str) : substring (extract_code x) x.
Proof.
  unfold extract_code. destruct (contains fence x).
  - eapply substring_trans; [apply strip_substring | apply slice_substring].
  - apply strip_substring.
Qed.

(** X2: the result never begins or ends with a whitespace character. *)
Theorem extract_code_is_trimmed (x : str) :
  headspace (extract_code x) = false /\
  headspace (reverse (extract_code x)) = false.
Proof. apply extract_code_trimmed. Qed.

(** *** A block inside prose *)

Section Envelope.

(** The reply [pre fence inner fence post], where neither [pre] nor [post]
    holds a backtick. *)
Variables pre inner post : str.

Hypothesis pre_plain : 96%N ∉ pre.
Hypothesis post_plain : 96%N ∉ post.

Local Abbreviation after_open := (inner ++ fence ++ post).
Local Abbreviation reply := (pre ++ fence ++ inner ++ fence ++ post).

Lemma fence_backticks : fence = [96; 96; 96]%N.
Proof. reflexivity. Qed.

Lemma startswith_head_ne (a c : N) (sub s : str) :
  a <> c -> startswith (a :: sub) (c :: s) = false.
Proof. intros H. simpl. by destruct (N.eqb_spec a c). Qed.

Lemma plain_no_fence (s : str) : 96%N ∉ s -> contains fence s = false.
Proof.
  induction s as [|c s IH]; [done|].
  intros [Hc Hs]%not_elem_of_cons.
  cbn [contains]. rewrite IH by done.
  by rewrite fence_backticks, startswith_head_ne.
Qed.

Lemma find_from_plain (s t : str) i :
  96%N ∉ s ->
  find_from fence (s ++ fence ++ t) i = i + Z.of_nat (length s).
Proof.
  revert i. induction s as [|c s IH]; intros i Hs.
  - rewrite app_nil_l, find_from_startswith by apply startswith_app.
    simpl. lia.
  - apply not_elem_of_cons in Hs as [Hc Hs].
    change ((c :: s) ++ fence ++ t) with (c :: (s ++ fence ++ t)).
    cbn [find_from].
    rewrite fence_backticks at 1. rewrite startswith_head_ne by done.
    rewrite IH by done. rewrite length_cons. lia.
Qed.

Lemma envelope_contains : contains fence reply = true.
Proof. apply contains_spec. by exists pre, after_open. Qed.

Lemma envelope_find : find reply fence 0 = Z.of_nat (length pre).
Proof. rewrite find_0, find_from_plain by done. lia. Qed.

(** No fence starts after the closing one. *)
Lemma closing_is_last : contains fence (drop 1 (fence ++ post)) = false.
Proof.
  change (drop 1 (fence ++ post)) with (96%N :: 96%N :: post).
  pose proof (plain_no_fence post post_plain) as H.
  cbn [contains]. rewrite H, fence_backticks.
  destruct post as [|c p]; [done|].
  apply not_elem_of_cons in post_plain as [Hc _].
  cbn [startswith]. rewrite !N.eqb_refl.
  destruct (N.eqb_spec 96 c) as [<-|_]; [done|]. done.
Qed.

Lemma rfind_from_closing (s : str) i :
  0 <= i ->
  rfind_from fence (s ++ fence ++ post) i = i + Z.of_nat (length s).
Proof.
  revert i. induction s as [|c s IH]; intros i Hi.
  - rewrite app_nil_l.
    change (fence ++ post) with (96%N :: drop 1 (fence ++ post)).
    cbn [rfind_from].
    rewrite rfind_from_none by apply closing_is_last.
    change (96%N :: drop 1 (fence ++ post)) with (fence ++ post).
    rewrite startswith_app. simpl. lia.
  - change ((c :: s) ++ fence ++ post) with (c :: (s ++ fence ++ post)).
    cbn [rfind_from]. rewrite IH by lia.
    destruct (Z.leb_spec 0 (i + 1 + Z.of_nat (length s))); [|lia].
    rewrite length_cons. lia.
Qed.

Lemma envelope_rfind :
  rfind reply fence = Z.of_nat (length pre + 3 + length inner).
Proof.
  unfold rfind.
  replace reply with ((pre ++ fence ++ inner) ++ fence ++ post)
    by by rewrite <- !app_assoc.
  rewrite rfind_from_closing by lia.
  rewrite !length_app, fence_length. lia.
Qed.

Lemma envelope_drop :
  drop (length pre + 3) reply = after_open.
Proof.
  replace reply with ((pre ++ fence) ++ after_open)
    by by rewrite <- !app_assoc.
  replace (length pre + 3)%nat with (length (pre ++ fence))
    by (rewrite length_app, fence_length; lia).
  apply drop_app_length.
Qed.

Lemma envelope_window k :
  0 <= k ->
  slice reply (Z.of_nat (length pre) + 3) (Z.of_nat (length pre) + 3 + k)
  = take (Z.to_nat k) after_open.
Proof.
  intros Hk. rewrite slice_drop_take by lia.
  replace (Z.to_nat (Z.of_nat (length pre) + 3)) with (length pre + 3)%nat
    by lia.
  by rewrite envelope_drop.
Qed.

(** The slice from [m] characters into [inner] to the closing fence. *)
Lemma envelope_body (m : nat) :
  (m <= length inner)%nat ->
  slice reply (Z.of_nat (length pre) + 3 + Z.of_nat m) (rfind reply fence)
  = drop m inner.
Proof.
  intros Hm. rewrite envelope_rfind.
  pose proof (slice_middle (pre ++ fence ++ take m inner) (drop m inner)
                           (fence ++ post)) as E.
  replace ((pre ++ fence ++ take m inner) ++ drop m inner ++ fence ++ post)
    with reply in E
    by (rewrite <- !app_assoc; by rewrite (app_assoc (take m inner)),
          take_drop).
  etrans; [|exact E]. f_equal.
  - rewrite !length_app, fence_length, length_take. lia.
  - rewrite !length_app, fence_length, length_take, length_drop. lia.
Qed.

(** What [extract_code] returns on the reply when it does not skip a tag
    line, and when it skips up to the first newline of [inner]. *)
Lemma envelope_extract_keep :
  truthy (strip (take 10 after_open)) && contains NL (take 20 after_open)
    = false ->
  extract_code reply = strip inner.
Proof.
  intros H. unfold extract_code.
  rewrite envelope_contains, envelope_find, !envelope_window by lia.
  change (Z.to_nat 10) with 10%nat. change (Z.to_nat 20) with 20%nat.
  rewrite H.
  pose proof (envelope_body 0 ltac:(lia)) as E.
  rewrite Z.add_0_r in E. by rewrite E.
Qed.

Lemma envelope_extract_skip (line body : str) :
  inner = line ++ NL ++ body ->
  10%N ∉ line ->
  truthy (strip (take 10 after_open)) && contains NL (take 20 after_open)
    = true ->
  extract_code reply = strip body.
Proof.
  intros Hi Hl H. unfold extract_code.
  rewrite envelope_contains, envelope_find, !envelope_window by lia.
  change (Z.to_nat 10) with 10%nat. change (Z.to_nat 20) with 20%nat.
  rewrite H.
  assert (Hf : find reply NL (Z.of_nat (length pre) + 3)
               = Z.of_nat (length pre) + 3 + Z.of_nat (length line)).
  { unfold find.
    destruct (Z.ltb_spec (Z.of_nat (length pre) + 3) 0); [lia|].
    destruct (Z.ltb_spec (Z.of_nat (length reply))
                         (Z.of_nat (length pre) + 3)) as [Hlt|_].
    { rewrite !length_app, fence_length in Hlt. lia. }
    replace (Z.to_nat (Z.of_nat (length pre) + 3))
      with (length pre + 3)%nat by lia.
    rewrite envelope_drop, Hi, <- !app_assoc.
    apply (find_from_char 10%N). done. }
  rewrite Hf.
  replace (Z.of_nat (length pre) + 3 + Z.of_nat (length line) + 1)
    with (Z.of_nat (length pre) + 3 + Z.of_nat (length line + 1)) by lia.
  rewrite envelope_body
    by (rewrite Hi, !length_app; change (length NL) with 1%nat; lia).
  f_equal. rewrite Hi.
  replace (length line + 1)%nat with (length (line ++ NL))
    by (rewrite length_app; change (length NL) with 1%nat; lia).
  by rewrite (app_assoc line NL body), drop_app_length.
Qed.

End Envelope.

Lemma tag_line_skipped (lang tail : str) :
  (length lang <= 19)%nat -> allspace (take 10 lang) = false ->
  truthy (strip (take 10 (lang ++ NL ++ tail)))
  && contains NL (take 20 (lang ++ NL ++ tail)) = true.
Proof.
  intros Hl Hs. apply andb_true_iff. split.
  - destruct (strip (take 10 (lang ++ NL ++ tail))) eqn:E; [|done].
    apply strip_nil_iff in E.
    rewrite take_app, allspace_app, Hs in E. done.
  - apply contains_spec. rewrite take_app.
    rewrite (take_ge lang) by lia.
    destruct (20 - length lang)%nat as [|n] eqn:En; [lia|].
    exists lang, (take n tail). done.
Qed.

(** X3: a fenced block inside prose.  When the text before the opening
    fence and the text after the closing fence hold no backtick, and the
    tag line is blank or at most 19 characters long with a non-whitespace
    character among its first ten, the result is what stands between the
    tag line and the closing fence, trimmed: the prose on both sides and
    the tag line are dropped, whatever the body holds. *)
Theorem extract_code_block_in_prose (pre lang body post : str) :
  96%N ∉ pre -> 96%N ∉ post -> 10%N ∉ lang ->
  allspace lang = true \/
    ((length lang <= 19)%nat /\ allspace (take 10 lang) = false) ->
  extract_code (pre ++ fence ++ lang ++ NL ++ body ++ fence ++ post)
  = strip body.
Proof.
  intros Hpre Hpost Hnl H.
  replace (pre ++ fence ++ lang ++ NL ++ body ++ fence ++ post)
    with (pre ++ fence ++ (lang ++ NL ++ body) ++ fence ++ post)
    by by rewrite <- !app_assoc.
  destruct (truthy (strip (take 10 ((lang ++ NL ++ body) ++ fence ++ post)))
            && contains NL (take 20 ((lang ++ NL ++ body) ++ fence ++ post)))
    eqn:E.
  - by apply (envelope_extract_skip pre _ post Hpre Hpost lang body).
  - rewrite (envelope_extract_keep pre _ post Hpre Hpost E).
    destruct H as [H | [Hl Hs]].
    + pose proof (strip_pad (lang ++ NL) body []) as P.
      rewrite app_nil_r, <- app_assoc in P. apply P; [|done].
      by rewrite allspace_app, H.
    + rewrite <- !app_assoc in E.
      by rewrite (tag_line_skipped lang (body ++ fence ++ post)) in E.
Qed.

Lemma extract_code_block_in_prose_witness :
  extract_code (lit "Here is the page:
" ++ fence ++ lit "html" ++ NL ++ lit "<p>hi</p>
" ++ fence ++ lit "
Enjoy!") = lit "<p>hi</p>".
Proof.
  etrans; [apply extract_code_block_in_prose|].
  - apply (bool_decide_unpack _). vm_compute. exact I.
  - apply (bool_decide_unpack _). vm_compute. exact I.
  - apply (bool_decide_unpack _). vm_compute. exact I.
  - right. vm_compute. split; [lia | reflexivity].
  - vm_compute. reflexivity.
Defined.

(** X4: a fenced span on one line.  When no backtick stands before the
    opening fence or after the closing one and no newline occurs among the
    20 characters that follow the opening fence, nothing is skipped: the
    result is the text between the two fences, trimmed. *)
Theorem extract_code_inline_span (pre code post : str) :
  96%N ∉ pre -> 96%N ∉ post ->
  10%N ∉ take 20 (code ++ fence ++ post) ->
  extract_code (pre ++ fence ++ code ++ fence ++ post) = strip code.
Proof.
  intros Hpre Hpost Hnl.
  apply (envelope_extract_keep pre code post Hpre Hpost).
  apply andb_false_iff. right.
  destruct (contains NL (take 20 (code ++ fence ++ post))) eqn:E; [|done].
  by apply contains_char in E.
Qed.

Lemma extract_code_inline_span_witness :
  extract_code (lit "Use " ++ fence ++ lit " x = 1 " ++ fence ++ lit " here.")
  = lit "x = 1".
Proof.
  etrans; [apply extract_code_inline_span|].
  - apply (bool_decide_unpack _). vm_compute. exact I.
  - apply (bool_decide_unpack _). vm_compute. exact I.
  - apply (bool_decide_unpack _). vm_compute. exact I.
  - vm_compute. reflexivity.
Defined.

(** ** More about [call_llm_api] *)

(** X5: without a usable API key, neither as argument nor in the
    environment ([None] and the empty string both count as missing), the
    call raises [ValueError] before anything else happens: nothing is
    printed, no request is posted, the world is as it was. *)
Theorem call_llm_api_without_key env prompt system_message model api_key
    endpoint w :
  falsy api_key = true ->
  falsy (environ env !! lit "LLM_API_KEY") = true ->
  call_llm_api env prompt system_message model api_key endpoint w
  = (inl api_key_missing, w).
Proof.
  intros Ha He. rewrite call_llm_api_eq. unfold effective_key.
  by rewrite Ha, He.
Qed.

Lemma call_llm_api_without_key_witness :
  call_llm_api (mkEnv ∅ (sample_server None) (fun _ => true))
               (lit "hello") default_system_message None (Some []) None
               sample_world
  = (inl api_key_missing, sample_world).
Proof. apply call_llm_api_without_key; reflexivity. Defined.

(** X6: arguments that are given and not empty win over the environment:
    the call posts exactly one request, to the given endpoint, for the
    given model, authorised with the given key, whatever the environment
    holds; the sampling parameters are fixed. *)
Theorem call_llm_api_explicit_arguments env prompt system_message
    (model key endpoint : str) w :
  model <> [] -> key <> [] -> endpoint <> [] ->
  requests
    (call_llm_api env prompt system_message (Some model) (Some key)
                  (Some endpoint) w).2
  = requests w ++
    [ {| req_endpoint := endpoint;
         req_content_type := lit "application/json";
         req_authorization := lit "Bearer " ++ key;
         req_model := model;
         req_system := system_message;
         req_user := prompt;
         req_temperature := (2, 10);
         req_max_tokens := 4000 |} ].
Proof.
  intros Hm Hk He. rewrite call_llm_api_eq.
  destruct model as [|m0 m]; [done|]. destruct key as [|k0 k]; [done|].
  destruct endpoint as [|e0 e]; [done|].
  cbn [effective_key falsy]. cbv zeta.
  by destruct (server env _ _).
Qed.

Lemma call_llm_api_explicit_arguments_witness :
  req_model <$> requests
    (call_llm_api (sample_env None) (lit "hello") default_system_message
       (Some (lit "gpt-4o-mini")) (Some (lit "sk-cli"))
       (Some (lit "http://localhost:8080/v1")) sample_world).2
  = [lit "gpt-4o-mini"].
Proof.
  rewrite call_llm_api_explicit_arguments by discriminate.
  reflexivity.
Defined.

(** X7: a call that has a key posts exactly one request and passes on what
    the service did: the content of the reply, or the very exception the
    exchange raised, re-raised after one line "Error calling LLM API: ..."
    on standard output.  There is no retry, and no file is touched. *)
Theorem call_llm_api_once env prompt system_message model api_key endpoint
    key w :
  effective_key env api_key = Some key ->
  let q := request_of env prompt system_message model endpoint key in
  let r := call_llm_api env prompt system_message model api_key endpoint w in
  requests r.2 = requests w ++ [q] /\
  files r.2 = files w /\
  stderr r.2 = stderr w /\
  match server env (length (requests w)) q with
  | Replies _ content => r.1 = inr content
  | Raises cls msg | Malformed _ cls msg =>
      r.1 = inl (Exception cls msg) /\
      last (stdout r.2) = Some (lit "Error calling LLM API: " ++ msg)
  end.
Proof.
  intros Hk. cbv zeta. rewrite call_llm_api_eq, Hk. cbv zeta.
  destruct (server env _ _); cbn [fst snd requests files stderr stdout
    log_stdout log_request]; rewrite ?last_snoc; done.
Qed.

Lemma call_llm_api_once_witness :
  (call_llm_api (sample_env (Some 0%nat)) (lit "hello")
     default_system_message None None None sample_world).1
  = inl (Exception (lit "ConnectionError") (lit "connection refused")) /\
  length (requests
    (call_llm_api (sample_env (Some 0%nat)) (lit "hello")
       default_system_message None None None sample_world).2) = 1%nat.
Proof.
  destruct (call_llm_api_once (sample_env (Some 0%nat)) (lit "hello")
              default_system_message None None None (lit "sk-env")
              sample_world) as (Hq & _ & _ & Hr).
  - vm_compute. reflexivity.
  - split.
    + exact (proj1 Hr).
    + rewrite Hq. reflexivity.
Defined.

(** ** Saving and reading back *)



(** ** Effects of the steps *)

(** Inclusion between two lists given element by element. *)
Ltac list_sub :=
  let p := fresh "p" in
  let Hp := fresh "Hp" in
  intros p Hp;
  repeat (rewrite ?elem_of_cons, ?elem_of_app, ?elem_of_nil in Hp);
  repeat (rewrite ?elem_of_cons, ?elem_of_app, ?elem_of_nil);
  tauto.

Section Effects.

Variable env : Env.

Implicit Types (w : World) (paths : list str).

Lemma effect_refl paths n w : effect env paths n w w.
Proof.
  split_and!; [done | done |]. exists []. rewrite app_nil_r.
  split_and!; [done | simpl; lia |]. intros q Hq. by apply elem_of_nil in Hq.
Qed.

Lemma effect_trans paths1 paths2 n1 n2 w1 w2 w3 :
  effect env paths1 n1 w1 w2 -> effect env paths2 n2 w2 w3 ->
  effect env (paths1 ++ paths2) (n1 + n2) w1 w3.
Proof.
  intros (He1 & Hf1 & qs1 & Hq1 & Hl1 & Hk1)
         (He2 & Hf2 & qs2 & Hq2 & Hl2 & Hk2).
  split_and!.
  - congruence.
  - intros p Hp. apply not_elem_of_app in Hp as [Hp1 Hp2].
    by rewrite Hf2, Hf1.
  - exists (qs1 ++ qs2). split_and!.
    + by rewrite Hq2, Hq1, <- app_assoc.
    + rewrite length_app. lia.
    + intros q [Hq | Hq]%elem_of_app; eauto.
Qed.

Lemma effect_weaken paths paths' n n' w w' :
  paths ⊆ paths' -> (n <= n')%nat ->
  effect env paths n w w' -> effect env paths' n' w w'.
Proof.
  intros Hsub Hn (He & Hf & qs & Hq & Hl & Hk). split_and!; [done | |].
  - intros p Hp. apply Hf. intros Hin. by apply Hp, Hsub.
  - exists qs. split_and!; [done | lia | done].
Qed.

Lemma or_else_self (d : str) : or_else (Some d) d = d.
Proof. by destruct d. Qed.

Lemma stage_request_from_environment k artifact prompt key :
  from_environment env key (stage_request env k artifact prompt key).
Proof. done. Qed.

Lemma config_request_from_environment c key :
  from_environment env key (config_request env c key).
Proof.
  unfold from_environment, config_request, request_of.
  cbn [req_endpoint req_model req_authorization req_content_type
       req_temperature req_max_tokens].
  by rewrite or_else_self.
Qed.

(** One step of the pipeline touches its own output and nothing else. *)
Lemma run_stage_effect k artifact w r w' :
  run_stage env k artifact w = (r, w') ->
  effect env [stage_output_path k] 1 w w'.
Proof.
  intros H. destruct r as [e|a].
  - pose proof H as Hq. apply run_stage_requests in Hq.
    apply run_stage_inl in H as (_ & Hf & He & _).
    split_and!; [done | by rewrite Hf |].
    destruct Hq as [Hq | (raw & key & _ & Hk & Hq)].
    + exists []. rewrite app_nil_r. split_and!; [done | simpl; lia |].
      intros q Hin. by apply elem_of_nil in Hin.
    + eexists [_]. split_and!; [done | simpl; lia |].
      intros q ->%list_elem_of_singleton. exists key. split; [done|].
      apply stage_request_from_environment.
  - apply run_stage_inr in H
      as (raw & key & el & reply & _ & Hk & _ & _ & Hf & Hq & He).
    split_and!; [done | |].
    + intros p Hp. rewrite Hf. apply lookup_insert_ne.
      intros <-. apply Hp. by left.
    + eexists [_]. split_and!; [done | simpl; lia |].
      intros q ->%list_elem_of_singleton. exists key. split; [done|].
      apply stage_request_from_environment.
Qed.

Lemma generate_config_file_requests c w r w' :
  generate_config_file env c w = (r, w') ->
  requests w' = requests w \/
  exists key, effective_key env None = Some key /\
              requests w' = requests w ++ [config_request env c key].
Proof.
  intros H. unfold_step H. split_step.
  all: rewrite ?effective_key_environ in *.
  all: first [ by left | right; by eexists ].
Qed.

Lemma generate_config_file_effect c w r w' :
  generate_config_file env c w = (r, w') ->
  effect env [cfg_name c] 1 w w'.
Proof.
  intros H. pose proof H as Hq. apply generate_config_file_requests in Hq.
  assert (Hreq : exists qs,
             requests w' = requests w ++ qs /\ (length qs <= 1)%nat /\
             forall q, q ∈ qs ->
               exists key, effective_key env None = Some key /\
                           from_environment env key q).
  { destruct Hq as [Hq | (key & Hk & Hq)].
    - exists []. rewrite app_nil_r. split_and!; [done | simpl; lia |].
      intros q Hin. by apply elem_of_nil in Hin.
    - eexists [_]. split_and!; [done | simpl; lia |].
      intros q ->%list_elem_of_singleton. exists key. split; [done|].
      apply config_request_from_environment. }
  destruct r as [e|[]].
  - apply generate_config_file_inl in H as (_ & Hf & He & _).
    split_and!; [done | by rewrite Hf | done].
  - apply generate_config_file_inr in H
      as (key & el & reply & _ & _ & Hf & _ & He).
    split_and!; [done | | done].
    intros p Hp. rewrite Hf. apply lookup_insert_ne.
    intros <-. apply Hp. by left.
Qed.

Lemma config_loop_effect (cs : list Config) w r w' :
  for_each cs (generate_config_file env) w = (r, w') ->
  effect env (cfg_name <$> cs) (length cs) w w'.
Proof.
  revert w. induction cs as [|c cs IH]; intros w H.
  - injection H as <- <-. apply effect_refl.
  - cbn [for_each] in H. unfold bind in H.
    destruct (generate_config_file env c w) as [[e|[]] w1] eqn:Hc.
    + injection H as <- <-.
      apply generate_config_file_effect in Hc.
      eapply effect_weaken; [| |exact Hc].
      * rewrite fmap_cons. list_sub.
      * simpl. lia.
    + apply generate_config_file_effect in Hc. apply IH in H.
      apply (effect_trans _ _ _ _ _ _ _ Hc H).
Qed.

Lemma primary_effect w r w' :
  primary env w = (r, w') ->
  effect env [html_path; js_path; css_path; test_path] 4 w w'.
Proof.
  unfold primary, bind. intros H.
  destruct (step1 env w) as [[e|h] w1] eqn:H1;
    apply (run_stage_effect HTML (artifacts_of [] [] [] [])) in H1.
  { injection H as <- <-.
    eapply effect_weaken; [| |exact H1]; [list_sub | lia]. }
  destruct (step2 env h w1) as [[e|j] w2] eqn:H2;
    apply (run_stage_effect Script (artifacts_of h [] [] [])) in H2;
    pose proof (effect_trans _ _ _ _ _ _ _ H1 H2) as H12.
  { injection H as <- <-.
    eapply effect_weaken; [| |exact H12]; [list_sub | lia]. }
  destruct (step3 env h j w2) as [[e|c] w3] eqn:H3;
    apply (run_stage_effect Style (artifacts_of h j [] [])) in H3;
    pose proof (effect_trans _ _ _ _ _ _ _ H12 H3) as H123.
  { injection H as <- <-.
    eapply effect_weaken; [| |exact H123]; [list_sub | lia]. }
  destruct (step4 env h j c w3) as [[e|t] w4] eqn:H4;
    apply (run_stage_effect Tests (artifacts_of h j c [])) in H4;
    pose proof (effect_trans _ _ _ _ _ _ _ H123 H4) as H1234.
  all: injection H as <- <-.
  all: eapply effect_weaken; [| |exact H1234]; [list_sub | lia].
Qed.

Lemma main_body_effect w r w' :
  main_body env w = (r, w') -> effect env written_paths 7 w w'.
Proof.
  rewrite main_body_eq. unfold bind. intros H.
  destruct (primary env (after_banner env w)) as [[e|a] w4] eqn:Hp;
    apply primary_effect in Hp.
  { injection H as <- <-.
    eapply effect_weaken; [| |exact Hp];
      [unfold written_paths; list_sub | lia]. }
  unfold generate_config_files in H.
  destruct (for_each config_files (generate_config_file env) w4)
    as [[e|[]] w5] eqn:Hc;
    apply config_loop_effect in Hc;
    pose proof (effect_trans _ _ _ _ _ _ _ Hp Hc) as Hpc.
  { injection H as <- <-. exact Hpc. }
  injection H as <- <-. exact Hpc.
Qed.

Lemma run_effect args w :
  effect env written_paths 7 w (run env args w).2.
Proof.
  destruct (main_body env w) as [[e|[]] w'] eqn:H.
  - rewrite (run_body_raises env args _ _ _ H).
    by apply main_body_effect in H.
  - rewrite (run_body_returns env args _ _ H).
    by apply main_body_effect in H.
Qed.

End Effects.

(** ** Whole runs *)


(** X10: a run changes no file but the four outputs under [generated/]
    and the three configuration files; in particular it leaves the prompt
    files as they were and deletes nothing. *)
Theorem run_touches_only_its_outputs env args w p :
  p ∉ written_paths ->
  files (run env args w).2 !! p = files w !! p.
Proof.
  intros Hp. destruct (run_effect env args w) as (_ & Hf & _). by apply Hf.
Qed.

Lemma run_touches_only_its_outputs_witness :
  files (run (sample_env None) no_args sample_world).2 !! ui_prompt_path
  = Some (lit "A calculator page.
").
Proof.
  rewrite run_touches_only_its_outputs.
  - vm_compute. reflexivity.
  - apply (bool_decide_unpack _). vm_compute. exact I.
Defined.

(** X11: a run only appends to the log of requests, at most seven of
    them, and exactly seven when it ends with status 0: one per stage and
    one per configuration file, none repeated. *)
Theorem run_posts_at_most_seven env args w :
  exists qs,
    requests (run env args w).2 = requests w ++ qs /\
    (length qs <= 7)%nat /\
    ((run env args w).1 = 0 -> length qs = 7%nat).
Proof.
  destruct (run_effect env args w) as (_ & _ & qs & Hq & Hl & _).
  exists qs. split_and!; [done | done |].
  intros H0.
  destruct (run env args w) as [s wf] eqn:Hrun. simpl in H0, Hq. subst s.
  apply run_zero in Hrun. rewrite main_body_eq in Hrun.
  apply bind_inr in Hrun as ([[[h j] c] t] & w4 & Hp & H).
  apply bind_inr in H as ([] & w5 & Hc & Hs).
  apply primary_inr in Hp as (raw & el & reply & key & _ & _ & _ & Hq4 & _).
  apply config_loop_inr in Hc as (_ & (qs5 & Hq5 & Hl5) & _).
  injection Hs as <-. cbn [requests log_stdout] in Hq.
  rewrite Hq5, Hq4, after_banner_requests, <- app_assoc in Hq.
  apply app_inv_head in Hq. rewrite <- Hq, length_app, Hl5. reflexivity.
Qed.

(** X12: every request of a run, whatever the command line, goes to the
    endpoint of the environment for the model of the environment, is
    authorised with the environment's key, and carries the content type
    [application/json], temperature 0.2 and [max_tokens] 4000. *)
Theorem run_requests_from_environment env args w q :
  q ∈ drop (length (requests w)) (requests (run env args w).2) ->
  exists key,
    effective_key env None = Some key /\
    from_environment env key q.
Proof.
  destruct (run_effect env args w) as (_ & _ & qs & Hq & _ & Hk).
  rewrite Hq, drop_app_length. apply Hk.
Qed.

Lemma run_requests_from_environment_witness :
  exists key,
    effective_key (sample_env None) None = Some key /\
    from_environment (sample_env None) key
      (stage_request (sample_env None) HTML (artifacts_of [] [] [] [])
                     (lit "A calculator page.") (lit "sk-env")).
Proof.
  apply (run_requests_from_environment (sample_env None) override_args
                                       sample_world).
  vm_compute. left.
Defined.

Section KeyAndProgress.

Variable env : Env.

Lemma run_stage_without_key k artifact w r w' :
  effective_key env None = None ->
  run_stage env k artifact w = (r, w') ->
  (exists e, r = inl e) /\ files w' = files w /\ requests w' = requests w.
Proof.
  intros Hk H. destruct k; unfold_step H; split_step.
  all: try congruence.
  all: split_and!; [by eexists | done | done].
Qed.




End KeyAndProgress.

(** X13: with no API key in the environment a run ends with status 1
    before it has posted any request or written any file, whatever key the
    command line gave. *)
Theorem run_without_key env args w :
  effective_key env None = None ->
  (run env args w).1 = 1 /\
  requests (run env args w).2 = requests w /\
  files (run env args w).2 = files w.
Proof.
  intros Hk.
  destruct (step1 env (after_banner env w)) as [r w'] eqn:H1.
  destruct (run_stage_without_key env HTML (artifacts_of [] [] [] [])
              _ _ _ Hk H1) as ([e ->] & Hf & Hq).
  rewrite (run_stage_failure env args HTML w e w') by by constructor.
  cbn [fst snd requests files log_stdout]. by rewrite Hf, Hq.
Qed.

Lemma run_without_key_witness :
  (run (mkEnv ∅ (sample_server None) (fun _ => true)) override_args
       sample_world).1 = 1 /\
  requests (run (mkEnv ∅ (sample_server None) (fun _ => true)) override_args
                sample_world).2 = [].
Proof.
  destruct (run_without_key (mkEnv ∅ (sample_server None) (fun _ => true))
              override_args sample_world) as (Hs & Hq & _).
  - reflexivity.
  - split; [exact Hs | exact Hq].
Defined.








(** ** Reruns *)

Section Outcomes.

Variable env : Env.











End Outcomes.


